(** * levelupapi/views/event.py: the event view set and its serializers

    A shallow embedding of [EventView] (create, retrieve, update, destroy,
    list, signup) and of the serializers of the same file.  The handlers
    are written in a state-and-exception monad over the relational store;
    the calls into the object mapper ([objects.get], [save], [delete], the
    many-to-many manager, query sets) are modelled next to them with the
    behaviour the handlers rely on. *)

From Stdlib Require Import ZArith String.
From stdpp Require Import base gmap strings list.

Local Open Scope Z_scope.
Local Open Scope string_scope.
Local Open Scope list_scope.

(** ** Python values and exceptions *)

(** Values found in a request body (parsed JSON scalars) and handed on as
    they are: [request.data["name"]] is stored without conversion. *)
Inductive value :=
| VInt (z : Z)
| VStr (s : string).

#[global] Instance value_eq_dec : EqDecision value.
Proof. solve_decision. Defined.

(** The model classes of [levelupapi.models] (and Django's [User]). *)
Inductive model := MUser | MGamer | MGame | MStatus | MEvent.

#[global] Instance model_eq_dec : EqDecision model.
Proof. solve_decision. Defined.

Definition model_name (m : model) : string :=
  match m with
  | MUser => "User"
  | MGamer => "Gamer"
  | MGame => "Game"
  | MStatus => "Status"
  | MEvent => "Event"
  end.

(** Exception classes other than [ValidationError].  Every one of them is
    a subclass of [Exception]; [DoesNotExist m] is [m.DoesNotExist]. *)
Inductive exn_class :=
| DoesNotExist (m : model)
| MultipleObjectsReturned (m : model)
| KeyError
| ValueError
| AttributeError
| IndexError
| OtherError (name : string).

#[global] Instance exn_class_eq_dec : EqDecision exn_class.
Proof. solve_decision. Defined.

(** A raised exception.  [django.core.exceptions.ValidationError] is built
    from a message, which it keeps as [ex.message] and as [ex.args[0]];
    any other exception carries its [args] tuple, which may be empty. *)
Inductive exn :=
| ValidationError (message : string)
| Raised (cls : exn_class) (args : list string).

#[global] Instance exn_eq_dec : EqDecision exn.
Proof. solve_decision. Defined.

(** [ex.args[0]]: indexing an empty tuple raises [IndexError]. *)
Definition args_0 (ex : exn) : exn + string :=
  match ex with
  | ValidationError message => inr message
  | Raised _ (a :: _) => inr a
  | Raised _ [] => inl (Raised IndexError ["tuple index out of range"])
  end.

(** [except Event.DoesNotExist]. *)
Definition is_Event_DoesNotExist (ex : exn) : bool :=
  match ex with
  | Raised (DoesNotExist MEvent) _ => true
  | _ => false
  end.

(** ** The relational store *)

(** Modelled from the spec: Django's [User] model (not among the sources),
    identity fields only: first name, last name, email. *)
Record User := mkUser {
  user_id : Z;
  first_name : string;
  last_name : string;
  email : string
}.

(** Modelled from the spec: the [Gamer] model ([levelupapi/models] is not
    among the sources): wraps a User identity. *)
Record Gamer := mkGamer {
  gamer_id : Z;
  gamer_user : Z          (* foreign key to User *)
}.

(** Modelled from the spec: the [Game] model ([levelupapi/models] is not
    among the sources): id, name, player limit, creator reference, game
    type reference. *)
Record Game := mkGame {
  game_id : Z;
  game_name : string;
  player_limit : Z;
  created_by : Z;
  gametype : Z
}.

(** Modelled from the spec: the [Status] model
    ([levelupapi/models/status.py] is not among the sources): id, title. *)
Record Status := mkStatus {
  status_id : Z;
  title : string
}.

(** Modelled from the spec: the [Event] model ([levelupapi/models] is not
    among the sources), as a row of its table: id, name, time, references
    to the hosting Gamer, the Game and the Status. *)
Record EventRow := mkEventRow {
  row_id : Z;
  row_name : value;
  row_time : value;
  row_host : Z;           (* foreign key to Gamer *)
  row_game : Z;           (* foreign key to Game *)
  row_status : Z          (* foreign key to Status *)
}.

(** Tables are lists of rows in insertion order.  [signed_up_by] is the
    join table of the many-to-many relation between events and gamers, a
    set of (event id, gamer id) pairs. *)
Record Store := mkStore {
  users : list User;
  gamers : list Gamer;
  games : list Game;
  statuses : list Status;
  events : list EventRow;
  signed_up_by : gset (Z * Z)
}.

Definition set_events (st : Store) (evs : list EventRow) : Store :=
  mkStore (users st) (gamers st) (games st) (statuses st) evs (signed_up_by st).

Definition set_signed_up_by (st : Store) (j : gset (Z * Z)) : Store :=
  mkStore (users st) (gamers st) (games st) (statuses st) (events st) j.

(** ** Model instances *)

(** A related object of an instance: assigned as an object
    ([event.host = gamer]) or still to be read from its table through the
    foreign key of the row the instance was loaded from. *)
Inductive rel (A : Type) :=
| Loaded (a : A)
| Lazy (pk : Z).
Arguments Loaded {A} a.
Arguments Lazy {A} pk.

Definition rel_pk {A : Type} (pk_of : A → Z) (r : rel A) : Z :=
  match r with
  | Loaded a => pk_of a
  | Lazy pk => pk
  end.

(** Modelled from the spec: an instance of the [Event] model.  [joined] is
    derived, computed per request and not persisted: [ev_joined] is [None]
    on an instance it was never assigned on. *)
Record Event := mkEvent {
  ev_id : option Z;
  ev_name : value;
  ev_time : value;
  ev_host : rel Gamer;
  ev_game : rel Game;
  ev_status : rel Status;
  ev_joined : option bool
}.

Definition set_joined (event : Event) (b : bool) : Event :=
  mkEvent (ev_id event) (ev_name event) (ev_time event) (ev_host event)
          (ev_game event) (ev_status event) (Some b).

Definition set_id (event : Event) (pk : Z) : Event :=
  mkEvent (Some pk) (ev_name event) (ev_time event) (ev_host event)
          (ev_game event) (ev_status event) (ev_joined event).

(** The instance the mapper builds from a row. *)
Definition from_db (r : EventRow) : Event :=
  mkEvent (Some (row_id r)) (row_name r) (row_time r)
          (Lazy (row_host r)) (Lazy (row_game r)) (Lazy (row_status r)) None.

(** The row an instance is written as under primary key [pk].  Name and
    time are kept as the values assigned: the conversions of the field
    types of the model, which is not among the sources, are left out. *)
Definition to_row (pk : Z) (event : Event) : EventRow :=
  mkEventRow pk (ev_name event) (ev_time event)
             (rel_pk gamer_id (ev_host event))
             (rel_pk game_id (ev_game event))
             (rel_pk status_id (ev_status event)).

(** ** Requests and responses *)

Record Request := mkRequest {
  auth_user : User;                      (* request.auth.user *)
  data : gmap string value;              (* request.data *)
  query_params : gmap string string;     (* request.query_params *)
  method : string                        (* request.method *)
}.

(** Output of [EventUserSerializer], [EventGamerSerializer],
    [GameSerializer], [StatusSerializer] and [EventSerializer]: one field
    per entry of [Meta.fields]. *)
Record EventUserJSON := mkEventUserJSON {
  j_first_name : string;
  j_last_name : string;
  j_email : string
}.

Record EventGamerJSON := mkEventGamerJSON {
  j_user : EventUserJSON
}.

Record GameJSON := mkGameJSON {
  j_game_id : Z;
  j_game_name : string;
  j_player_limit : Z;
  j_created_by : Z;
  j_gametype : Z
}.

Record StatusJSON := mkStatusJSON {
  j_status_id : Z;
  j_title : string
}.

Record EventJSON := mkEventJSON {
  j_id : option Z;
  j_game : GameJSON;
  j_host : EventGamerJSON;
  j_name : value;
  j_time : value;
  j_status : StatusJSON;
  j_joined : option bool     (* None: the instance has no [joined] to render *)
}.

(** What a response carries. *)
Inductive body :=
| DataNone                                  (* Response(None, ...) *)
| DataDict (d : list (string * string))     (* {}, {'message': ...}, {"reason": ...} *)
| DataEvent (j : EventJSON)                 (* serializer.data *)
| DataEvents (js : list EventJSON)          (* serializer.data, many=True *)
| DataContent (ex : exn).                   (* HttpResponseServerError(ex) *)

Record Response := mkResponse {
  resp_data : body;
  status_code : value
}.

(** [rest_framework.status], the module the handlers know as [status]. *)
Module status.
Definition HTTP_200_OK : value := VInt 200.
Definition HTTP_201_CREATED : value := VInt 201.
Definition HTTP_204_NO_CONTENT : value := VInt 204.
Definition HTTP_400_BAD_REQUEST : value := VInt 400.
Definition HTTP_404_NOT_FOUND : value := VInt 404.
Definition HTTP_500_INTERNAL_SERVER_ERROR : value := VInt 500.
End status.

(** [Response(data)] without a status: the default, 200. *)
Definition Response_default (d : body) : Response := mkResponse d (VInt 200).

(** [HttpResponseServerError(ex)]: status 500, content from the exception. *)
Definition HttpResponseServerError (ex : exn) : Response :=
  mkResponse (DataContent ex) (VInt 500).

(** ** The monad of the handlers

    A computation reads and writes the store and either returns or raises.
    A raise keeps the store as it is at that point: nothing is rolled
    back. *)
Definition M (A : Type) : Type := Store → (exn + A) * Store.

Definition ret {A : Type} (a : A) : M A := λ st, (inr a, st).

Definition raise {A : Type} (ex : exn) : M A := λ st, (inl ex, st).

Definition bind {A B : Type} (m : M A) (k : A → M B) : M B :=
  λ st, match m st with
        | (inl ex, st') => (inl ex, st')
        | (inr a, st') => k a st'
        end.

(** [try: m except Exception as ex: h ex]. *)
Definition try_except {A : Type} (m : M A) (h : exn → M A) : M A :=
  λ st, match m st with
        | (inl ex, st') => h ex st'
        | (inr a, st') => (inr a, st')
        end.

Definition lift {A : Type} (r : exn + A) : M A := λ st, (r, st).

Definition get_store : M Store := λ st, (inr st, st).

(** Computations that only read the store. *)
Definition reads_only {A : Type} (m : M A) : Prop := ∀ st, (m st).2 = st.

Notation "x <- m ;; k" := (bind m (λ x, k))
  (at level 100, m at next level, right associativity).
Notation "m ;;; k" := (bind m (λ _, k))
  (at level 100, right associativity).

(** ** The object mapper *)

(** The calls into the database that may fail for reasons of the
    database's own.  [fault] below says which ones do, and with what.  The
    reads behind a query set and behind a related object are taken not to
    fail that way. *)
Inductive db_op :=
| OpGet (m : model) (pk : Z)           (* m.objects.get(pk=pk) *)
| OpGetGamer (user : Z)                (* Gamer.objects.get(user=user) *)
| OpSave (row : EventRow)              (* event.save() *)
| OpDelete (pk : Z)                    (* event.delete() *)
| OpAdd (event gamer : Z)              (* event.signed_up_by.add(gamer) *)
| OpRemove (event gamer : Z).          (* event.signed_up_by.remove(gamer) *)

(** [get]: the one matching row, [DoesNotExist] for none,
    [MultipleObjectsReturned] for more (Django's message also counts
    them). *)
Definition get_one {A : Type} (m : model) (rows : list A) : exn + A :=
  match rows with
  | [] => inl (Raised (DoesNotExist m)
                      [model_name m +:+ " matching query does not exist."])
  | [r] => inr r
  | _ :: _ :: _ => inl (Raised (MultipleObjectsReturned m)
                               ["get() returned more than one " +:+ model_name m])
  end.

(** The next primary key of the event table, taken as one more than the
    largest key present.  A database sequence also gives a key no row has,
    but not always this one: it does not hand out again the key of a
    deleted row. *)
Definition fresh_pk (rows : list EventRow) : Z :=
  1 + foldr (λ r acc, Z.max (row_id r) acc) 0 rows.

Definition has_pk (pk : Z) (rows : list EventRow) : bool :=
  existsb (λ r, bool_decide (row_id r = pk)) rows.

(** UPDATE ... WHERE id = pk. *)
Definition update_rows (row : EventRow) (rows : list EventRow) : list EventRow :=
  (λ r, if bool_decide (row_id r = row_id row) then row else r) <$> rows.

(** [gamer in attendees]: model instances are equal when their primary
    keys are. *)
Definition Gamer_in (gamer : Gamer) (attendees : list Gamer) : bool :=
  existsb (λ g, bool_decide (gamer_id g = gamer_id gamer)) attendees.

(** A Django query set over the event table.  It is lazy: it holds the
    [game__id] filters applied so far and, once it has been iterated, the
    model instances it fetched (its [_result_cache]).  Iterating it again
    yields those same instances. *)
Record QuerySet := mkQuerySet {
  qs_game_id : list Z;
  qs_result_cache : option (list Event)
}.

Definition qs_matches (q : QuerySet) (r : EventRow) : bool :=
  forallb (λ g, bool_decide (row_game r = g)) (qs_game_id q).

(** [Event.objects.all()]: nothing is read yet. *)
Definition Event_objects_all : QuerySet := mkQuerySet [] None.

(** Modelled from the spec: the attributes of a [Status] instance that
    hold data (the model is not among the sources): its fields [id] and
    [title], and [pk].  No other name is a data attribute of it. *)
Definition Status_getattr (s : Status) (attr : string) : exn + value :=
  if String.eqb attr "id" then inr (VInt (status_id s))
  else if String.eqb attr "pk" then inr (VInt (status_id s))
  else if String.eqb attr "title" then inr (VStr (title s))
  else inl (Raised AttributeError
                   ["'Status' object has no attribute '" +:+ attr +:+ "'"]).

Section EventView.

(** What the database does on its own account: [fault op = Some ex] when
    the call [op] raises [ex] whatever the tables hold. *)
Variable fault : db_op → option exn.

(** Python's [int] on a string, by which the mapper turns a key given as
    text into a number. *)
Variable py_int : string → option Z.

(** The value of a primary-key lookup as a number. *)
Definition to_pk (v : value) : exn + Z :=
  match v with
  | VInt z => inr z
  | VStr s =>
      match py_int s with
      | Some z => inr z
      | None => inl (Raised ValueError
                            ["Field 'id' expected a number but got '" +:+ s +:+ "'."])
      end
  end.

Definition query {A : Type} (op : db_op) (result : Store → exn + A) : M A :=
  λ st, match fault op with
        | Some ex => (inl ex, st)
        | None => (result st, st)
        end.

(** [Event.objects.get(pk=pk)].  [pk] is the key of the URL as the number
    it denotes; URL dispatch is not part of the file. *)
Definition Event_objects_get (pk : Z) : M Event :=
  query (OpGet MEvent pk)
        (λ st, match get_one MEvent (filter (λ r, row_id r = pk) (events st)) with
               | inl ex => inl ex
               | inr r => inr (from_db r)
               end).

(** [Gamer.objects.get(user=user)]. *)
Definition Gamer_objects_get (user : User) : M Gamer :=
  query (OpGetGamer (user_id user))
        (λ st, get_one MGamer (filter (λ g, gamer_user g = user_id user) (gamers st))).

(** [Game.objects.get(pk=v)]. *)
Definition Game_objects_get (v : value) : M Game :=
  pk <- lift (to_pk v) ;;
  query (OpGet MGame pk)
        (λ st, get_one MGame (filter (λ g, game_id g = pk) (games st))).

(** [Status.objects.get(pk=v)]. *)
Definition Status_objects_get (v : value) : M Status :=
  pk <- lift (to_pk v) ;;
  query (OpGet MStatus pk)
        (λ st, get_one MStatus (filter (λ s, status_id s = pk) (statuses st))).

(** [event.save()]: an INSERT under a new key for an instance without one,
    otherwise an UPDATE of the rows of that key, or an INSERT when there is
    none.  The instance has its key afterwards. *)
Definition Event_save (event : Event) : M Event :=
  λ st,
    let pk := default (fresh_pk (events st)) (ev_id event) in
    let row := to_row pk event in
    match fault (OpSave row) with
    | Some ex => (inl ex, st)
    | None =>
        let rows := if has_pk pk (events st)
                    then update_rows row (events st)
                    else (events st ++ [row])%list in
        (inr (set_id event pk), set_events st rows)
    end.

(** The key of a saved instance; an unsaved one cannot be deleted or
    related. *)
Definition need_pk (event : Event) : M Z :=
  match ev_id event with
  | Some pk => ret pk
  | None => raise (Raised ValueError ["Event object has no primary key."])
  end.

(** [event.delete()]: the rows of that key go, and with them their rows in
    the join table. *)
Definition Event_delete (event : Event) : M unit :=
  pk <- need_pk event ;;
  λ st, match fault (OpDelete pk) with
        | Some ex => (inl ex, st)
        | None =>
            (inr (),
             set_signed_up_by
               (set_events st (filter (λ r, row_id r ≠ pk) (events st)))
               (filter (λ p, p.1 ≠ pk) (signed_up_by st)))
        end.

(** [event.signed_up_by.add(gamer)]: a join row, unless it is there. *)
Definition signed_up_by_add (event : Event) (gamer : Gamer) : M unit :=
  pk <- need_pk event ;;
  λ st, match fault (OpAdd pk (gamer_id gamer)) with
        | Some ex => (inl ex, st)
        | None => (inr (), set_signed_up_by st ({[ (pk, gamer_id gamer) ]} ∪ signed_up_by st))
        end.

(** [event.signed_up_by.remove(gamer)]. *)
Definition signed_up_by_remove (event : Event) (gamer : Gamer) : M unit :=
  pk <- need_pk event ;;
  λ st, match fault (OpRemove pk (gamer_id gamer)) with
        | Some ex => (inl ex, st)
        | None => (inr (), set_signed_up_by st (signed_up_by st ∖ {[ (pk, gamer_id gamer) ]}))
        end.

(** [event.signed_up_by.all()], evaluated: the gamers joined to the event. *)
Definition signed_up_by_all (event : Event) : M (list Gamer) :=
  pk <- need_pk event ;;
  st <- get_store ;;
  ret (filter (λ g, (pk, gamer_id g) ∈ signed_up_by st) (gamers st)).

(** Iterating a query set: the cached instances, or else one new instance
    per matching row, kept in the cache from then on. *)
Definition qs_fetch_all (q : QuerySet) : M (QuerySet * list Event) :=
  match qs_result_cache q with
  | Some items => ret (q, items)
  | None =>
      st <- get_store ;;
      let items := from_db <$> List.filter (qs_matches q) (events st) in
      ret (mkQuerySet (qs_game_id q) (Some items), items)
  end.

(** [events.filter(game__id=game)]: a new query set with one more filter.
    Django clones the query and leaves the result cache behind: iterating
    the new query set reads the table again and builds new instances. *)
Definition qs_filter_game_id (q : QuerySet) (game : string) : M QuerySet :=
  g <- lift (to_pk (VStr game)) ;;
  ret (mkQuerySet (qs_game_id q ++ [g])%list None).

Fixpoint for_each {A B : Type} (f : A → M B) (items : list A) : M (list B) :=
  match items with
  | [] => ret []
  | a :: rest =>
      b <- f a ;;
      bs <- for_each f rest ;;
      ret (b :: bs)
  end.

(** ** Serializers *)

(** The related object of an instance: the assigned one, or the row its
    foreign key points to. *)
Definition resolve {A : Type} (m : model) (table : Store → list A)
    (pk_of : A → Z) (r : rel A) : M A :=
  match r with
  | Loaded a => ret a
  | Lazy pk => st <- get_store ;; lift (get_one m (filter (λ x, pk_of x = pk) (table st)))
  end.

Definition EventUserSerializer (u : User) : EventUserJSON :=
  mkEventUserJSON (first_name u) (last_name u) (email u).

Definition EventGamerSerializer (g : Gamer) : M EventGamerJSON :=
  u <- resolve MUser users user_id (Lazy (gamer_user g)) ;;
  ret (mkEventGamerJSON (EventUserSerializer u)).

Definition GameSerializer (g : Game) : GameJSON :=
  mkGameJSON (game_id g) (game_name g) (player_limit g) (created_by g) (gametype g).

Definition StatusSerializer (s : Status) : StatusJSON :=
  mkStatusJSON (status_id s) (title s).

(** [EventSerializer(event).data], field by field in the order of
    [Meta.fields]. *)
Definition EventSerializer (event : Event) : M EventJSON :=
  game <- resolve MGame games game_id (ev_game event) ;;
  host <- resolve MGamer gamers gamer_id (ev_host event) ;;
  host_data <- EventGamerSerializer host ;;
  status <- resolve MStatus statuses status_id (ev_status event) ;;
  ret (mkEventJSON (ev_id event) (GameSerializer game) host_data
                   (ev_name event) (ev_time event) (StatusSerializer status)
                   (ev_joined event)).

(** [EventSerializer(events, many=True).data]: iterates the query set it
    is given and renders each instance. *)
Definition EventSerializer_many (events : QuerySet) : M (list EventJSON) :=
  fetched <- qs_fetch_all events ;;
  for_each EventSerializer fetched.2.

(** ** The handlers of [EventView] *)

(** [request.data[key]]. *)
Definition data_get (request : Request) (key : string) : M value :=
  match data request !! key with
  | Some v => ret v
  | None => raise (Raised KeyError [key])
  end.

(** [EventView.create].  The instance is built by [Event()] and one
    assignment per field; it is written here once all of them are made, in
    the order in which the source reads the request and the tables. *)
Definition create (request : Request) : M Response :=
  name <- data_get request "name" ;;
  time <- data_get request "time" ;;
  gamer <- Gamer_objects_get (auth_user request) ;;
  game_pk <- data_get request "game_id" ;;
  game <- Game_objects_get game_pk ;;
  event_status <- Status_objects_get (VInt 1) ;;
  let event := mkEvent None name time
                       (Loaded gamer) (Loaded game) (Loaded event_status) None in
  try_except
    (event <- Event_save event ;;
     serializer_data <- EventSerializer event ;;
     ret (mkResponse (DataEvent serializer_data) status.HTTP_201_CREATED))
    (λ ex,
       match ex with
       | ValidationError message =>
           ret (mkResponse (DataDict [("reason", message)])
                           status.HTTP_400_BAD_REQUEST)
       | _ => raise ex
       end).

(** [EventView.retrieve]. *)
Definition retrieve (request : Request) (pk : Z) : M Response :=
  try_except
    (event <- Event_objects_get pk ;;
     serializer_data <- EventSerializer event ;;
     ret (Response_default (DataEvent serializer_data)))
    (λ ex, ret (HttpResponseServerError ex)).

(** [EventView.update].  The assignment [status = Status.objects.get(...)]
    makes [status] a local variable of the function, so the [status] of
    its last line is that row and not the module [rest_framework.status]:
    the status code of the response is read off the row. *)
Definition update (request : Request) (pk : Z) : M Response :=
  event <- Event_objects_get pk ;;
  name <- data_get request "name" ;;
  time <- data_get request "time" ;;
  host <- Gamer_objects_get (auth_user request) ;;
  gameId <- data_get request "gameId" ;;
  game <- Game_objects_get gameId ;;
  statusId <- data_get request "statusId" ;;
  status <- Status_objects_get statusId ;;
  let event := mkEvent (ev_id event) name time
                       (Loaded host) (Loaded game) (Loaded status)
                       (ev_joined event) in
  Event_save event ;;;
  code <- lift (Status_getattr status "HTTP_204_NO_CONTENT") ;;
  ret (mkResponse (DataDict []) code).

(** [EventView.destroy]. *)
Definition destroy (request : Request) (pk : Z) : M Response :=
  try_except
    (event <- Event_objects_get pk ;;
     Event_delete event ;;;
     ret (mkResponse (DataDict []) status.HTTP_204_NO_CONTENT))
    (λ ex,
       if is_Event_DoesNotExist ex then
         message <- lift (args_0 ex) ;;
         ret (mkResponse (DataDict [("message", message)])
                         status.HTTP_404_NOT_FOUND)
       else
         message <- lift (args_0 ex) ;;
         ret (mkResponse (DataDict [("message", message)])
                         status.HTTP_500_INTERNAL_SERVER_ERROR)).

(** The loop of [list]: [event.joined = gamer in event.signed_up_by.all()]
    on every instance the query set yields.  The instances are those of
    its cache, and the assignment stays on them. *)
Definition set_joined_each (gamer : Gamer) (events : QuerySet) : M QuerySet :=
  fetched <- qs_fetch_all events ;;
  items <- for_each
             (λ event,
                attendees <- signed_up_by_all event ;;
                ret (set_joined event (Gamer_in gamer attendees)))
             fetched.2 ;;
  ret (mkQuerySet (qs_game_id fetched.1) (Some items)).

(** [EventView.list]. *)
Definition list_ (request : Request) : M Response :=
  let events := Event_objects_all in
  gamer <- Gamer_objects_get (auth_user request) ;;
  events <- set_joined_each gamer events ;;
  events <- match query_params request !! "gameId" with
            | Some game => qs_filter_game_id events game
            | None => ret events
            end ;;
  serializer_data <- EventSerializer_many events ;;
  ret (Response_default (DataEvents serializer_data)).

(** The handler of a failed [add] or [remove] in [signup]. *)
Definition signup_failed (ex : exn) : M (option Response) :=
  message <- lift (args_0 ex) ;;
  ret (Some (Response_default (DataDict [("message", message)]))).

(** [EventView.signup].  A method other than POST and DELETE falls off the
    end of the function, which returns [None]. *)
Definition signup (request : Request) (pk : Z) : M (option Response) :=
  gamer <- Gamer_objects_get (auth_user request) ;;
  found <- try_except
             (event <- Event_objects_get pk ;; ret (inr event))
             (λ ex,
                if is_Event_DoesNotExist ex then
                  ret (inl (mkResponse (DataDict [("message", "Event does not exist.")])
                                       status.HTTP_400_BAD_REQUEST))
                else raise ex) ;;
  match found with
  | inl response => ret (Some response)
  | inr event =>
      if String.eqb (method request) "POST" then
        try_except
          (signed_up_by_add event gamer ;;;
           ret (Some (mkResponse (DataDict []) status.HTTP_201_CREATED)))
          signup_failed
      else if String.eqb (method request) "DELETE" then
        try_except
          (signed_up_by_remove event gamer ;;;
           ret (Some (mkResponse DataNone status.HTTP_204_NO_CONTENT)))
          signup_failed
      else ret None
  end.

End EventView.

(** The answer of [list] that renders the instances [items]: their
    serialization with status 200, or the exception it raises. *)
Definition list_answer (items : list Event) (st : Store) : (exn + Response) * Store :=
  (match (for_each EventSerializer items st).1 with
   | inl ex => inl ex
   | inr serializer_data => inr (Response_default (DataEvents serializer_data))
   end, st).

(** ** A small database, on which the handlers are run *)

(** Unsigned decimal numerals, the part of Python's [int] the examples
    need. *)
Definition digit_of (c : Ascii.ascii) : option Z :=
  let n := Z.of_nat (Ascii.nat_of_ascii c) in
  if bool_decide (48 ≤ n ≤ 57)%Z then Some (n - 48) else None.

Fixpoint digits_to_Z (acc : Z) (s : string) : option Z :=
  match s with
  | EmptyString => Some acc
  | String c rest =>
      match digit_of c with
      | Some d => digits_to_Z (10 * acc + d) rest
      | None => None
      end
  end.

Definition decimal (s : string) : option Z :=
  match s with
  | EmptyString => None
  | _ => digits_to_Z 0 s
  end.

(** A database that never fails on its own account. *)
Definition no_fault : db_op → option exn := λ _, None.

Definition ada : User := mkUser 7 "Ada" "Lovelace" "ada@example.org".
Definition bob : User := mkUser 8 "Bob" "Stone" "bob@example.org".
Definition gamer_ada : Gamer := mkGamer 7 7.
Definition gamer_bob : Gamer := mkGamer 8 8.
Definition trivia : Game := mkGame 3 "Trivia" 6 8 1.
Definition chess : Game := mkGame 4 "Chess" 2 8 2.
Definition status_open : Status := mkStatus 1 "Open for signing up".
Definition status_closed : Status := mkStatus 2 "Closed".
Definition trivia_night : EventRow :=
  mkEventRow 1 (VStr "Trivia Night") (VStr "19:00") 8 3 1.
Definition blitz : EventRow :=
  mkEventRow 2 (VStr "Blitz") (VStr "20:00") 8 4 1.

(** Gamer 7 (Ada) has signed up for event 1, hosted by gamer 8 (Bob). *)
Definition demo : Store :=
  mkStore [ada; bob] [gamer_ada; gamer_bob] [trivia; chess]
          [status_open; status_closed] [trivia_night; blitz] {[ (1, 7) ]}.

(** POST /events by Ada; the body names Bob's gamer as host. *)
Definition create_request : Request :=
  mkRequest ada
            (<["name" := VStr "Quiz"]>
               (<["time" := VStr "18:00"]>
                  (<["game_id" := VInt 3]> (<["host" := VInt 8]> ∅))))
            ∅ "POST".

(** The same for a game that does not exist. *)
Definition create_request_no_game : Request :=
  mkRequest ada
            (<["name" := VStr "Quiz"]>
               (<["time" := VStr "18:00"]> (<["game_id" := VInt 99]> ∅)))
            ∅ "POST".

(** PUT /events/1 by Ada. *)
Definition update_request : Request :=
  mkRequest ada
            (<["name" := VStr "Quiz"]>
               (<["time" := VStr "18:00"]>
                  (<["gameId" := VInt 4]> (<["statusId" := VInt 2]> ∅))))
            ∅ "PUT".

(** GET /events and GET /events?gameId=3 by Ada. *)
Definition list_request : Request := mkRequest ada ∅ ∅ "GET".
Definition list_request_game_3 : Request :=
  mkRequest ada ∅ {[ "gameId" := "3" ]} "GET".

(** Requests without body or query, by Ada and by Bob. *)
Definition request_by (user : User) (http_method : string) : Request :=
  mkRequest user ∅ ∅ http_method.

(** A failure that carries no argument, as a bare [assert] raises it. *)
Definition bare_failure : exn := Raised (OtherError "AssertionError") [].

(** A failure that carries one. *)
Definition locked : exn := Raised (OtherError "OperationalError") ["database is locked"].

Definition fault_on (op : db_op → bool) (ex : exn) : db_op → option exn :=
  λ o, if op o then Some ex else None.

Definition is_add (o : db_op) : bool :=
  match o with OpAdd _ _ => true | _ => false end.

Definition is_remove (o : db_op) : bool :=
  match o with OpRemove _ _ => true | _ => false end.

Definition is_delete (o : db_op) : bool :=
  match o with OpDelete _ => true | _ => false end.

Definition is_save (o : db_op) : bool :=
  match o with OpSave _ => true | _ => false end.

(** The database without a Status of key 1, and with the row of event 1
    twice. *)
Definition demo_no_status_1 : Store :=
  mkStore (users demo) (gamers demo) (games demo) [status_closed]
          (events demo) (signed_up_by demo).

Definition demo_twice : Store :=
  set_events demo [trivia_night; trivia_night; blitz].

Definition set_data (request : Request) (d : gmap string value) : Request :=
  mkRequest (auth_user request) d (query_params request) (method request).

(** ** Frames and further requests *)

(** The tables no handler of the file writes to. *)
Definition same_reference_tables (st st' : Store) : Prop :=
  users st' = users st ∧ gamers st' = gamers st
  ∧ games st' = games st ∧ statuses st' = statuses st.

(** The store without the rows of key [pk] and without their sign-ups. *)
Definition without_event (pk : Z) (st : Store) : Store :=
  set_signed_up_by
    (set_events st (filter (λ r, row_id r ≠ pk) (events st)))
    (filter (λ p, p.1 ≠ pk) (signed_up_by st)).

(** A user without a Gamer. *)
Definition carol : User := mkUser 9 "Carol" "Reed" "carol@example.org".

(** POST /events by Ada without a time. *)
Definition create_request_no_time : Request :=
  mkRequest ada (<["name" := VStr "Quiz"]> (<["game_id" := VInt 3]> ∅)) ∅ "POST".

(** PUT /events/1 by Ada without a statusId, and one that names Bob's gamer
    as host. *)
Definition update_request_no_status : Request :=
  mkRequest ada
            (<["name" := VStr "Quiz"]>
               (<["time" := VStr "18:00"]> (<["gameId" := VInt 4]> ∅)))
            ∅ "PUT".

Definition update_request_host : Request :=
  set_data update_request (<["host" := VInt 8]> (data update_request)).

(** GET /events?gameId=game by Ada. *)
Definition list_request_game (game : string) : Request :=
  mkRequest ada ∅ {[ "gameId" := game ]} "GET".

(** The request [request] as sent by [user]. *)
Definition as_user (user : User) (request : Request) : Request :=
  mkRequest user (data request) (query_params request) (method request).

(** * Properties *)

(** ** Running the monad *)

Lemma bind_inr {A B : Type} (m : M A) (k : A → M B) st a st' :
  m st = (inr a, st') → bind m k st = k a st'.
Proof. intros H. unfold bind. now rewrite H. Qed.

Lemma bind_inl {A B : Type} (m : M A) (k : A → M B) st ex st' :
  m st = (inl ex, st') → bind m k st = (inl ex, st').
Proof. intros H. unfold bind. now rewrite H. Qed.

Lemma try_except_inr {A : Type} (m : M A) (h : exn → M A) st a st' :
  m st = (inr a, st') → try_except m h st = (inr a, st').
Proof. intros H. unfold try_except. now rewrite H. Qed.

Lemma try_except_inl {A : Type} (m : M A) (h : exn → M A) st ex st' :
  m st = (inl ex, st') → try_except m h st = h ex st'.
Proof. intros H. unfold try_except. now rewrite H. Qed.

(** One step of a handler whose outcome [H] gives. *)
Ltac step H :=
  first [ rewrite (bind_inr _ _ _ _ _ H)
        | rewrite (bind_inl _ _ _ _ _ H)
        | rewrite (try_except_inr _ _ _ _ _ H)
        | rewrite (try_except_inl _ _ _ _ _ H) ].

Lemma reads_only_ret {A : Type} (a : A) : reads_only (ret a).
Proof. now intros st. Qed.

Lemma reads_only_raise {A : Type} (ex : exn) : reads_only (@raise A ex).
Proof. now intros st. Qed.

Lemma reads_only_lift {A : Type} (r : exn + A) : reads_only (lift r).
Proof. now intros st. Qed.

Lemma reads_only_get_store : reads_only get_store.
Proof. now intros st. Qed.

Lemma reads_only_bind {A B : Type} (m : M A) (k : A → M B) :
  reads_only m → (∀ a, reads_only (k a)) → reads_only (bind m k).
Proof.
  intros Hm Hk st. unfold bind. specialize (Hm st).
  destruct (m st) as [[ex | a] st']; simpl in *; subst; [done | apply Hk].
Qed.

Lemma reads_only_try_except {A : Type} (m : M A) (h : exn → M A) :
  reads_only m → (∀ ex, reads_only (h ex)) → reads_only (try_except m h).
Proof.
  intros Hm Hh st. unfold try_except. specialize (Hm st).
  destruct (m st) as [[ex | a] st']; simpl in *; subst; [apply Hh | done].
Qed.

Lemma reads_only_for_each {A B : Type} (f : A → M B) (items : list A) :
  (∀ a, reads_only (f a)) → reads_only (for_each f items).
Proof.
  intros Hf. induction items as [| a rest IH]; simpl.
  - apply reads_only_ret.
  - apply reads_only_bind; [apply Hf |]. intros b.
    apply reads_only_bind; [apply IH |]. intros bs. apply reads_only_ret.
Qed.

Lemma reads_only_eq {A : Type} (m : M A) st r st' :
  reads_only m → m st = (r, st') → st' = st.
Proof. intros Hm H. specialize (Hm st). rewrite H in Hm. exact Hm. Qed.

Create HintDb reads.

#[local] Hint Resolve reads_only_ret reads_only_raise reads_only_lift
  reads_only_get_store : reads.

(** ** Tables *)

Lemma get_one_inr {A : Type} (m : model) (rows : list A) r :
  get_one m rows = inr r → rows = [r].
Proof.
  destruct rows as [| x [| y rest]]; simpl; intros H; try discriminate.
  now inversion H.
Qed.

Lemma filter_none {A : Type} (P : A → Prop) `{!∀ x, Decision (P x)} (l : list A) :
  (∀ x, x ∈ l → ¬ P x) → filter P l = [].
Proof.
  induction l as [| a l IH]; intros Hno; [done |].
  rewrite filter_cons_False; [| apply Hno; left].
  apply IH. intros x Hx. apply Hno. now right.
Qed.

Lemma filter_one_elem {A : Type} (P : A → Prop) `{!∀ x, Decision (P x)} (l : list A) r :
  filter P l = [r] → r ∈ l ∧ P r.
Proof.
  intros Hone. assert (Hr : r ∈ filter P l) by (rewrite Hone; left).
  apply list_elem_of_filter in Hr. tauto.
Qed.

Lemma fresh_pk_above (rows : list EventRow) r :
  r ∈ rows → row_id r < fresh_pk rows.
Proof.
  unfold fresh_pk. induction rows as [| x rows IH]; intros Hr.
  - inversion Hr.
  - simpl. apply elem_of_cons in Hr as [-> | Hr]; [lia |].
    specialize (IH Hr). lia.
Qed.

Lemma has_pk_fresh (rows : list EventRow) : has_pk (fresh_pk rows) rows = false.
Proof.
  unfold has_pk. apply not_true_is_false. intros H.
  apply existsb_exists in H as (r & Hr & Heq).
  apply bool_decide_eq_true in Heq. apply list_elem_of_In in Hr.
  apply fresh_pk_above in Hr. lia.
Qed.

Section Facts.

Variable fault : db_op → option exn.
Variable py_int : string → option Z.

(** ** The object mapper *)

Lemma query_ok {A : Type} (op : db_op) (result : Store → exn + A) st :
  fault op = None → query fault op result st = (result st, st).
Proof. intros H. unfold query. now rewrite H. Qed.

Lemma query_fault {A : Type} (op : db_op) (result : Store → exn + A) st ex :
  fault op = Some ex → query fault op result st = (inl ex, st).
Proof. intros H. unfold query. now rewrite H. Qed.

Lemma query_inr {A : Type} (op : db_op) (result : Store → exn + A) st a st' :
  query fault op result st = (inr a, st') →
  st' = st ∧ fault op = None ∧ result st = inr a.
Proof.
  unfold query. destruct (fault op); intros H; inversion H; subst. auto.
Qed.

Lemma reads_only_query {A : Type} (op : db_op) (result : Store → exn + A) :
  reads_only (query fault op result).
Proof. intros st. unfold query. now destruct (fault op). Qed.

Lemma data_get_ok (request : Request) key v st :
  data request !! key = Some v → data_get request key st = (inr v, st).
Proof. intros H. unfold data_get. now rewrite H. Qed.

(** A successful [Event.objects.get(pk=pk)] leaves the store alone and
    returns the instance of the one row of that key. *)
Lemma Event_objects_get_inr pk st event st' :
  Event_objects_get fault pk st = (inr event, st') →
  st' = st ∧ fault (OpGet MEvent pk) = None
  ∧ ∃ r, filter (λ r, row_id r = pk) (events st) = [r] ∧ event = from_db r
         ∧ ev_id event = Some pk.
Proof.
  unfold Event_objects_get. intros H.
  apply query_inr in H as (-> & Hf & H). split; [done |]. split; [done |].
  destruct (get_one MEvent _) as [ex | r] eqn:E; [discriminate |].
  inversion H; subst. apply get_one_inr in E. exists r. repeat split; [done |].
  apply filter_one_elem in E as [_ E]. simpl. now rewrite E.
Qed.

(** No row of that key: [Event.DoesNotExist], with Django's message. *)
Lemma Event_objects_get_missing pk st :
  fault (OpGet MEvent pk) = None →
  (∀ r, r ∈ events st → row_id r ≠ pk) →
  Event_objects_get fault pk st
  = (inl (Raised (DoesNotExist MEvent) ["Event matching query does not exist."]), st).
Proof.
  intros Hf Hno. unfold Event_objects_get. rewrite query_ok by done.
  now rewrite filter_none.
Qed.

(** More than one row of that key: [Event.MultipleObjectsReturned]. *)
Lemma Event_objects_get_many pk st r1 r2 rest :
  fault (OpGet MEvent pk) = None →
  filter (λ r, row_id r = pk) (events st) = r1 :: r2 :: rest →
  Event_objects_get fault pk st
  = (inl (Raised (MultipleObjectsReturned MEvent)
                 ["get() returned more than one Event"]), st).
Proof.
  intros Hf Hrows. unfold Event_objects_get. rewrite query_ok by done.
  now rewrite Hrows.
Qed.

Lemma Gamer_objects_get_inr user st gamer st' :
  Gamer_objects_get fault user st = (inr gamer, st') →
  st' = st ∧ gamer ∈ gamers st ∧ gamer_user gamer = user_id user.
Proof.
  unfold Gamer_objects_get. intros H.
  apply query_inr in H as (-> & _ & H). split; [done |].
  apply get_one_inr in H. now apply filter_one_elem in H.
Qed.

Lemma Status_objects_get_inr v st s st' :
  Status_objects_get fault py_int v st = (inr s, st') →
  st' = st ∧ s ∈ statuses st ∧ to_pk py_int v = inr (status_id s).
Proof.
  unfold Status_objects_get, bind, lift. intros H.
  destruct (to_pk py_int v) as [ex | pk] eqn:E; [discriminate |].
  apply query_inr in H as (-> & _ & H). split; [done |].
  apply get_one_inr in H. apply filter_one_elem in H as [Hin Heq].
  split; [done |]. simpl in Heq. now rewrite Heq.
Qed.

Lemma Game_objects_get_missing v k st :
  to_pk py_int v = inr k →
  fault (OpGet MGame k) = None →
  (∀ g, g ∈ games st → game_id g ≠ k) →
  Game_objects_get fault py_int v st
  = (inl (Raised (DoesNotExist MGame) ["Game matching query does not exist."]), st).
Proof.
  intros Hk Hf Hno. unfold Game_objects_get, bind, lift. rewrite Hk.
  rewrite query_ok by done. now rewrite filter_none.
Qed.

Lemma Status_objects_get_missing v k st :
  to_pk py_int v = inr k →
  fault (OpGet MStatus k) = None →
  (∀ s, s ∈ statuses st → status_id s ≠ k) →
  Status_objects_get fault py_int v st
  = (inl (Raised (DoesNotExist MStatus) ["Status matching query does not exist."]), st).
Proof.
  intros Hk Hf Hno. unfold Status_objects_get, bind, lift. rewrite Hk.
  rewrite query_ok by done. now rewrite filter_none.
Qed.

(** [save] on an instance without a key appends its row under a new key. *)
Lemma Event_save_insert event st :
  ev_id event = None →
  fault (OpSave (to_row (fresh_pk (events st)) event)) = None →
  Event_save fault event st
  = (inr (set_id event (fresh_pk (events st))),
     set_events st (events st ++ [to_row (fresh_pk (events st)) event])).
Proof.
  intros Hid Hf. unfold Event_save. rewrite Hid. simpl.
  now rewrite Hf, has_pk_fresh.
Qed.

Lemma Event_save_fault event st pk ex :
  pk = default (fresh_pk (events st)) (ev_id event) →
  fault (OpSave (to_row pk event)) = Some ex →
  Event_save fault event st = (inl ex, st).
Proof. intros -> Hf. unfold Event_save. now rewrite Hf. Qed.

Lemma reads_only_resolve {A : Type} (m : model) (table : Store → list A)
    (pk_of : A → Z) (r : rel A) :
  reads_only (resolve m table pk_of r).
Proof.
  destruct r; simpl; [apply reads_only_ret |].
  apply reads_only_bind; [apply reads_only_get_store |].
  intros st. apply reads_only_lift.
Qed.

Lemma reads_only_EventSerializer event : reads_only (EventSerializer event).
Proof.
  unfold EventSerializer, EventGamerSerializer.
  repeat (apply reads_only_bind; [| intros ?]);
    auto using reads_only_resolve with reads.
Qed.

(** ** [create] *)

(** [create] reads the keys name, time and game_id of the body and no
    other: a host field in the body changes nothing. *)
Lemma create_ignores_host request h :
  create fault py_int (set_data request (<["host" := h]> (data request)))
  = create fault py_int request.
Proof.
  unfold create, data_get, set_data. simpl.
  now rewrite !lookup_insert_ne by done.
Qed.

(** The store a [create] leaves behind once the lookups have succeeded and
    the database has taken the row. *)
Lemma create_store request st name time game_pk gamer game event_status :
  data request !! "name" = Some name →
  data request !! "time" = Some time →
  data request !! "game_id" = Some game_pk →
  Gamer_objects_get fault (auth_user request) st = (inr gamer, st) →
  Game_objects_get fault py_int game_pk st = (inr game, st) →
  Status_objects_get fault py_int (VInt 1) st = (inr event_status, st) →
  let event := mkEvent None name time
                       (Loaded gamer) (Loaded game) (Loaded event_status) None in
  let row := to_row (fresh_pk (events st)) event in
  fault (OpSave row) = None →
  (create fault py_int request st).2 = set_events st (events st ++ [row]).
Proof.
  intros Hname Htime Hgid Hgamer Hgame Hstatus event row Hsave.
  unfold create.
  step (data_get_ok request _ _ st Hname).
  step (data_get_ok request _ _ st Htime).
  step Hgamer.
  step (data_get_ok request _ _ st Hgid).
  step Hgame. step Hstatus.
  unfold try_except.
  rewrite (bind_inr _ _ _ _ _ (Event_save_insert event st eq_refl Hsave)).
  fold event row.
  pose proof (reads_only_EventSerializer (set_id event (fresh_pk (events st)))
                (set_events st (events st ++ [row]))) as Hser.
  unfold bind.
  destruct (EventSerializer _ _) as [[ex | d] st']; simpl in Hser; subst st';
    [| done].
  now destruct ex.
Qed.

(** C1. For every create request with a valid name, time and game_id (the
    lookups of the requester's Gamer, of the Game and of Status 1 succeed
    and the database takes the row), the event table gains exactly one row,
    whose status is 1 and whose host is the Gamer found for the
    authenticated user; a host field in the request body changes nothing of
    what [create] does. *)
Theorem create_status_1_host_requester
    request st name time game_pk gamer game event_status :
  data request !! "name" = Some name →
  data request !! "time" = Some time →
  data request !! "game_id" = Some game_pk →
  Gamer_objects_get fault (auth_user request) st = (inr gamer, st) →
  Game_objects_get fault py_int game_pk st = (inr game, st) →
  Status_objects_get fault py_int (VInt 1) st = (inr event_status, st) →
  fault (OpSave (mkEventRow (fresh_pk (events st)) name time
                            (gamer_id gamer) (game_id game) (status_id event_status)))
  = None →
  (∃ row, events (create fault py_int request st).2 = events st ++ [row]
          ∧ row_status row = 1
          ∧ row_host row = gamer_id gamer
          ∧ gamer ∈ gamers st
          ∧ gamer_user gamer = user_id (auth_user request))
  ∧ ∀ h, create fault py_int (set_data request (<["host" := h]> (data request))) st
         = create fault py_int request st.
Proof.
  intros Hname Htime Hgid Hgamer Hgame Hstatus Hsave. split.
  - eexists. split.
    + erewrite create_store by eassumption. reflexivity.
    + simpl. apply Status_objects_get_inr in Hstatus as (_ & _ & Hpk).
      simpl in Hpk. inversion Hpk as [Hone].
      apply Gamer_objects_get_inr in Hgamer as (_ & Hin & Huser).
      repeat split; congruence.
  - intros h. now rewrite create_ignores_host.
Qed.

(** The serializer on an instance whose related objects were assigned:
    only the user of the host is read from the tables. *)
Lemma EventSerializer_loaded event gamer game status_row u st :
  ev_host event = Loaded gamer →
  ev_game event = Loaded game →
  ev_status event = Loaded status_row →
  filter (λ x, user_id x = gamer_user gamer) (users st) = [u] →
  EventSerializer event st
  = (inr (mkEventJSON (ev_id event) (GameSerializer game)
                      (mkEventGamerJSON (EventUserSerializer u))
                      (ev_name event) (ev_time event)
                      (StatusSerializer status_row) (ev_joined event)), st).
Proof.
  intros Hhost Hgame Hstatus Huser.
  unfold EventSerializer, EventGamerSerializer, resolve, bind, get_store, lift, ret.
  rewrite Hhost, Hgame, Hstatus. simpl. now rewrite Huser.
Qed.

(** C9. For every create request whose lookups succeed: when the database
    takes the row, the response is the serialized Event (the new key, the
    Game, the user of the host, name and time, Status 1) with status 201;
    when [save] raises a validation failure, the response is status 400
    with a reason field carrying the failure's message, and nothing is
    written. *)
Theorem create_201_or_400
    request st name time game_pk gamer game event_status :
  data request !! "name" = Some name →
  data request !! "time" = Some time →
  data request !! "game_id" = Some game_pk →
  Gamer_objects_get fault (auth_user request) st = (inr gamer, st) →
  Game_objects_get fault py_int game_pk st = (inr game, st) →
  Status_objects_get fault py_int (VInt 1) st = (inr event_status, st) →
  let event := mkEvent None name time
                       (Loaded gamer) (Loaded game) (Loaded event_status) None in
  let pk := fresh_pk (events st) in
  (∀ u,
      fault (OpSave (to_row pk event)) = None →
      filter (λ x, user_id x = gamer_user gamer) (users st) = [u] →
      create fault py_int request st
      = (inr (mkResponse
                (DataEvent
                   (mkEventJSON (Some pk) (GameSerializer game)
                                (mkEventGamerJSON (EventUserSerializer u))
                                name time (StatusSerializer event_status) None))
                (VInt 201)),
         set_events st (events st ++ [to_row pk event])))
  ∧ (∀ message,
        fault (OpSave (to_row pk event)) = Some (ValidationError message) →
        create fault py_int request st
        = (inr (mkResponse (DataDict [("reason", message)]) (VInt 400)), st)).
Proof.
  intros Hname Htime Hgid Hgamer Hgame Hstatus event pk.
  split.
  - intros u Hsave Huser. unfold create.
    step (data_get_ok request _ _ st Hname).
    step (data_get_ok request _ _ st Htime).
    step Hgamer.
    step (data_get_ok request _ _ st Hgid).
    step Hgame. step Hstatus.
    apply try_except_inr.
    rewrite (bind_inr _ _ _ _ _ (Event_save_insert event st eq_refl Hsave)).
    fold event pk.
    now rewrite (bind_inr _ _ _ _ _
                   (EventSerializer_loaded (set_id event pk) gamer game event_status u
                      (set_events st (events st ++ [to_row pk event]))
                      eq_refl eq_refl eq_refl Huser)).
  - intros message Hsave. unfold create.
    step (data_get_ok request _ _ st Hname).
    step (data_get_ok request _ _ st Htime).
    step Hgamer.
    step (data_get_ok request _ _ st Hgid).
    step Hgame. step Hstatus.
    rewrite (try_except_inl _ _ st (ValidationError message) st); [reflexivity |].
    apply bind_inl. now apply (Event_save_fault event st pk).
Qed.

(** C10. In [create] only [save] and the serializer sit inside the [try]:
    whatever the lookup of the Game or of Status 1 raises is the outcome of
    the handler.  When the body's game_id matches no Game row, or when
    there is no Status row of key 1, the handler does not answer 400, it
    raises the lookup's [DoesNotExist]. *)
Theorem create_lookup_failure_escapes request st name time game_pk gamer :
  data request !! "name" = Some name →
  data request !! "time" = Some time →
  data request !! "game_id" = Some game_pk →
  Gamer_objects_get fault (auth_user request) st = (inr gamer, st) →
  (∀ ex, Game_objects_get fault py_int game_pk st = (inl ex, st) →
         create fault py_int request st = (inl ex, st))
  ∧ (∀ game ex,
        Game_objects_get fault py_int game_pk st = (inr game, st) →
        Status_objects_get fault py_int (VInt 1) st = (inl ex, st) →
        create fault py_int request st = (inl ex, st))
  ∧ (∀ k, to_pk py_int game_pk = inr k →
          fault (OpGet MGame k) = None →
          (∀ g, g ∈ games st → game_id g ≠ k) →
          create fault py_int request st
          = (inl (Raised (DoesNotExist MGame)
                         ["Game matching query does not exist."]), st))
  ∧ (∀ game, Game_objects_get fault py_int game_pk st = (inr game, st) →
             fault (OpGet MStatus 1) = None →
             (∀ s, s ∈ statuses st → status_id s ≠ 1) →
             create fault py_int request st
             = (inl (Raised (DoesNotExist MStatus)
                            ["Status matching query does not exist."]), st)).
Proof.
  intros Hname Htime Hgid Hgamer.
  assert (Hgame_fails : ∀ ex,
             Game_objects_get fault py_int game_pk st = (inl ex, st) →
             create fault py_int request st = (inl ex, st)).
  { intros ex Hgame. unfold create.
    step (data_get_ok request _ _ st Hname).
    step (data_get_ok request _ _ st Htime).
    step Hgamer.
    step (data_get_ok request _ _ st Hgid).
    now step Hgame. }
  assert (Hstatus_fails : ∀ game ex,
             Game_objects_get fault py_int game_pk st = (inr game, st) →
             Status_objects_get fault py_int (VInt 1) st = (inl ex, st) →
             create fault py_int request st = (inl ex, st)).
  { intros game ex Hgame Hstatus. unfold create.
    step (data_get_ok request _ _ st Hname).
    step (data_get_ok request _ _ st Htime).
    step Hgamer.
    step (data_get_ok request _ _ st Hgid).
    step Hgame. now step Hstatus. }
  split; [exact Hgame_fails |]. split; [exact Hstatus_fails |]. split.
  - intros k Hk Hf Hno. apply Hgame_fails.
    now apply (Game_objects_get_missing game_pk k).
  - intros game Hgame Hf Hno. apply (Hstatus_fails game); [done |].
    now apply (Status_objects_get_missing (VInt 1) 1).
Qed.

(** ** [retrieve] *)

(** C8. For every retrieve request: when the lookup by primary key
    succeeds, the serialized Event is returned; whatever exception the
    lookup raises, not-found and more-than-one-row among them, the answer
    is the generic response of status 500; in every case the handler
    answers, with status 200 or 500, hence never with 404. *)
Theorem retrieve_200_or_500 request pk st :
  (∀ event serializer_data,
      Event_objects_get fault pk st = (inr event, st) →
      EventSerializer event st = (inr serializer_data, st) →
      retrieve fault request pk st
      = (inr (mkResponse (DataEvent serializer_data) (VInt 200)), st))
  ∧ (∀ ex,
        Event_objects_get fault pk st = (inl ex, st) →
        retrieve fault request pk st
        = (inr (mkResponse (DataContent ex) (VInt 500)), st))
  ∧ (fault (OpGet MEvent pk) = None →
     (∀ r, r ∈ events st → row_id r ≠ pk) →
     retrieve fault request pk st
     = (inr (mkResponse
               (DataContent (Raised (DoesNotExist MEvent)
                                    ["Event matching query does not exist."]))
               (VInt 500)), st))
  ∧ (∀ r1 r2 rest,
        fault (OpGet MEvent pk) = None →
        filter (λ r, row_id r = pk) (events st) = r1 :: r2 :: rest →
        retrieve fault request pk st
        = (inr (mkResponse
                  (DataContent (Raised (MultipleObjectsReturned MEvent)
                                       ["get() returned more than one Event"]))
                  (VInt 500)), st))
  ∧ ∃ response,
      retrieve fault request pk st = (inr response, st)
      ∧ (status_code response = VInt 200 ∨ status_code response = VInt 500)
      ∧ status_code response ≠ VInt 404.
Proof.
  assert (Hfail : ∀ ex,
             Event_objects_get fault pk st = (inl ex, st) →
             retrieve fault request pk st
             = (inr (mkResponse (DataContent ex) (VInt 500)), st)).
  { intros ex Hget. unfold retrieve.
    rewrite (try_except_inl _ _ st ex st); [reflexivity |].
    now apply bind_inl. }
  repeat split.
  - intros event d Hget Hser. unfold retrieve. apply try_except_inr.
    step Hget. now step Hser.
  - exact Hfail.
  - intros Hf Hno. apply Hfail. now apply Event_objects_get_missing.
  - intros r1 r2 rest Hf Hrows. apply Hfail.
    now apply (Event_objects_get_many pk st r1 r2 rest).
  - unfold retrieve, try_except, bind.
    pose proof (reads_only_query (OpGet MEvent pk)
                  (λ st, match get_one MEvent (filter (λ r, row_id r = pk) (events st)) with
                         | inl ex => inl ex
                         | inr r => inr (from_db r)
                         end) st) as Hget.
    fold (Event_objects_get fault pk) in Hget.
    destruct (Event_objects_get fault pk st) as [[ex | event] st1];
      simpl in Hget; subst st1.
    + eexists. split; [reflexivity |]. simpl. split; [now right | done].
    + pose proof (reads_only_EventSerializer event st) as Hser.
      destruct (EventSerializer event st) as [[ex | d] st1];
        simpl in Hser; subst st1;
        (eexists; split; [reflexivity |]; simpl; split; [auto | done]).
Qed.

(** ** [update] *)

(** The last line of [update] reads HTTP_204_NO_CONTENT off a [Status]
    row, which has no such attribute. *)
Lemma Status_has_no_HTTP_204_NO_CONTENT (s : Status) :
  Status_getattr s "HTTP_204_NO_CONTENT"
  = inl (Raised AttributeError
                ["'Status' object has no attribute 'HTTP_204_NO_CONTENT'"]).
Proof. reflexivity. Qed.

(** [save] on an instance whose key has rows rewrites them. *)
Lemma Event_save_update event pk st :
  ev_id event = Some pk →
  has_pk pk (events st) = true →
  fault (OpSave (to_row pk event)) = None →
  Event_save fault event st
  = (inr (set_id event pk),
     set_events st (update_rows (to_row pk event) (events st))).
Proof.
  intros Hid Hhas Hf. unfold Event_save. rewrite Hid. simpl.
  now rewrite Hf, Hhas.
Qed.

Lemma Event_objects_get_has_pk pk st event :
  Event_objects_get fault pk st = (inr event, st) →
  ev_id event = Some pk ∧ has_pk pk (events st) = true.
Proof.
  intros H. apply Event_objects_get_inr in H as (_ & _ & r & Hr & _ & Hid).
  split; [done |]. unfold has_pk. apply existsb_exists. exists r.
  apply filter_one_elem in Hr as [Hin Heq]. split.
  - now apply list_elem_of_In.
  - now apply bool_decide_eq_true.
Qed.

(** [update] never answers: whatever the request and the store, it does
    not return a response. *)
Lemma update_never_answers request pk st response st' :
  update fault py_int request pk st ≠ (inr response, st').
Proof.
  unfold update, bind, lift.
  repeat first
    [ rewrite Status_has_no_HTTP_204_NO_CONTENT
    | match goal with
      | |- context [match ?x with _ => _ end] => destruct x
      end ];
    discriminate.
Qed.

(** On a request whose key matches an Event and whose payload names
    existing rows, [update] writes the row and then raises. *)
Lemma update_saves_then_raises
    request pk st event name time gameId statusId host game status_row :
  Event_objects_get fault pk st = (inr event, st) →
  data request !! "name" = Some name →
  data request !! "time" = Some time →
  Gamer_objects_get fault (auth_user request) st = (inr host, st) →
  data request !! "gameId" = Some gameId →
  Game_objects_get fault py_int gameId st = (inr game, st) →
  data request !! "statusId" = Some statusId →
  Status_objects_get fault py_int statusId st = (inr status_row, st) →
  let row := mkEventRow pk name time (gamer_id host) (game_id game)
                        (status_id status_row) in
  fault (OpSave row) = None →
  update fault py_int request pk st
  = (inl (Raised AttributeError
                 ["'Status' object has no attribute 'HTTP_204_NO_CONTENT'"]),
     set_events st (update_rows row (events st))).
Proof.
  intros Hget Hname Htime Hhost Hgid Hgame Hsid Hstatus row Hsave.
  destruct (Event_objects_get_has_pk pk st event Hget) as [Hid Hhas].
  unfold update.
  step Hget.
  step (data_get_ok request _ _ st Hname).
  step (data_get_ok request _ _ st Htime).
  step Hhost.
  step (data_get_ok request _ _ st Hgid).
  step Hgame.
  step (data_get_ok request _ _ st Hsid).
  step Hstatus.
  erewrite bind_inr; [| apply (Event_save_update _ pk); [exact Hid | exact Hhas | exact Hsave]].
  reflexivity.
Qed.

(** ** [destroy] *)

Lemma Event_delete_ok event pk st :
  ev_id event = Some pk →
  fault (OpDelete pk) = None →
  Event_delete fault event st
  = (inr (),
     set_signed_up_by
       (set_events st (filter (λ r, row_id r ≠ pk) (events st)))
       (filter (λ p, p.1 ≠ pk) (signed_up_by st))).
Proof.
  intros Hid Hf. unfold Event_delete, need_pk, bind. rewrite Hid. simpl.
  now rewrite Hf.
Qed.

Lemma Event_delete_fault event pk st ex :
  ev_id event = Some pk →
  fault (OpDelete pk) = Some ex →
  Event_delete fault event st = (inl ex, st).
Proof.
  intros Hid Hf. unfold Event_delete, need_pk, bind. rewrite Hid. simpl.
  now rewrite Hf.
Qed.

(** What the two [except] clauses of [destroy] do with a failure that
    carries a first argument. *)
Lemma destroy_handles request pk st ex message :
  (event <- Event_objects_get fault pk ;;
   Event_delete fault event ;;;
   ret (mkResponse (DataDict []) status.HTTP_204_NO_CONTENT)) st = (inl ex, st) →
  args_0 ex = inr message →
  destroy fault request pk st
  = (inr (mkResponse (DataDict [("message", message)])
                     (if is_Event_DoesNotExist ex then VInt 404 else VInt 500)),
     st).
Proof.
  intros Hrun Hargs. unfold destroy. step Hrun.
  destruct (is_Event_DoesNotExist ex); unfold bind, lift; now rewrite Hargs.
Qed.

(** [destroy] on the failures that carry a description. For every destroy
    request: when an Event matches the primary key and the database deletes
    it, its rows are gone and the answer is 204; when no Event matches, the
    answer is 404 with a message field; any other failure of the lookup or
    of the deletion that carries at least one argument is answered by 500
    with that argument as the message field. *)
Theorem destroy_204_404_500 request pk st :
  (∀ event,
      Event_objects_get fault pk st = (inr event, st) →
      fault (OpDelete pk) = None →
      let st' := set_signed_up_by
                   (set_events st (filter (λ r, row_id r ≠ pk) (events st)))
                   (filter (λ p, p.1 ≠ pk) (signed_up_by st)) in
      destroy fault request pk st
      = (inr (mkResponse (DataDict []) (VInt 204)), st')
      ∧ ∀ r, r ∈ events st' → row_id r ≠ pk)
  ∧ (fault (OpGet MEvent pk) = None →
     (∀ r, r ∈ events st → row_id r ≠ pk) →
     destroy fault request pk st
     = (inr (mkResponse
               (DataDict [("message", "Event matching query does not exist.")])
               (VInt 404)), st))
  ∧ (∀ ex message,
        Event_objects_get fault pk st = (inl ex, st)
        ∨ (∃ event, Event_objects_get fault pk st = (inr event, st)
                    ∧ fault (OpDelete pk) = Some ex) →
        is_Event_DoesNotExist ex = false →
        args_0 ex = inr message →
        destroy fault request pk st
        = (inr (mkResponse (DataDict [("message", message)]) (VInt 500)), st)).
Proof.
  split; [| split].
  - intros event Hget Hf st'. split.
    + unfold destroy. apply try_except_inr. step Hget.
      apply Event_objects_get_has_pk in Hget as [Hid _].
      now rewrite (bind_inr _ _ _ _ _ (Event_delete_ok event pk st Hid Hf)).
    + intros r Hr. simpl in Hr. apply list_elem_of_filter in Hr. tauto.
  - intros Hf Hno.
    rewrite (destroy_handles request pk st
               (Raised (DoesNotExist MEvent) ["Event matching query does not exist."])
               "Event matching query does not exist."); [done | | done].
    apply bind_inl. now apply Event_objects_get_missing.
  - intros ex message Hfail Hother Hargs.
    rewrite (destroy_handles request pk st ex message); [now rewrite Hother | | done].
    destruct Hfail as [Hget | (event & Hget & Hdel)].
    + now apply bind_inl.
    + step Hget. apply bind_inl.
      apply Event_objects_get_has_pk in Hget as [Hid _].
      now apply (Event_delete_fault event pk).
Qed.

(** ** [signup] *)

Lemma signed_up_by_add_ok event pk gamer st :
  ev_id event = Some pk →
  fault (OpAdd pk (gamer_id gamer)) = None →
  signed_up_by_add fault event gamer st
  = (inr (), set_signed_up_by st ({[ (pk, gamer_id gamer) ]} ∪ signed_up_by st)).
Proof.
  intros Hid Hf. unfold signed_up_by_add, need_pk, bind. rewrite Hid. simpl.
  now rewrite Hf.
Qed.

Lemma signed_up_by_add_fault event pk gamer st ex :
  ev_id event = Some pk →
  fault (OpAdd pk (gamer_id gamer)) = Some ex →
  signed_up_by_add fault event gamer st = (inl ex, st).
Proof.
  intros Hid Hf. unfold signed_up_by_add, need_pk, bind. rewrite Hid. simpl.
  now rewrite Hf.
Qed.

Lemma signed_up_by_remove_ok event pk gamer st :
  ev_id event = Some pk →
  fault (OpRemove pk (gamer_id gamer)) = None →
  signed_up_by_remove fault event gamer st
  = (inr (), set_signed_up_by st (signed_up_by st ∖ {[ (pk, gamer_id gamer) ]})).
Proof.
  intros Hid Hf. unfold signed_up_by_remove, need_pk, bind. rewrite Hid. simpl.
  now rewrite Hf.
Qed.

Lemma signed_up_by_remove_fault event pk gamer st ex :
  ev_id event = Some pk →
  fault (OpRemove pk (gamer_id gamer)) = Some ex →
  signed_up_by_remove fault event gamer st = (inl ex, st).
Proof.
  intros Hid Hf. unfold signed_up_by_remove, need_pk, bind. rewrite Hid. simpl.
  now rewrite Hf.
Qed.

(** The first [try] of [signup] on an Event that is there. *)
Lemma signup_found request pk st gamer event :
  Gamer_objects_get fault (auth_user request) st = (inr gamer, st) →
  Event_objects_get fault pk st = (inr event, st) →
  signup fault request pk st
  = (if String.eqb (method request) "POST" then
       try_except
         (signed_up_by_add fault event gamer ;;;
          ret (Some (mkResponse (DataDict []) status.HTTP_201_CREATED)))
         signup_failed
     else if String.eqb (method request) "DELETE" then
       try_except
         (signed_up_by_remove fault event gamer ;;;
          ret (Some (mkResponse DataNone status.HTTP_204_NO_CONTENT)))
         signup_failed
     else ret None) st.
Proof.
  intros Hgamer Hget. unfold signup. step Hgamer.
  rewrite (bind_inr _ _ st (inr event) st); [reflexivity |].
  apply try_except_inr. now step Hget.
Qed.

(** C5. For every signup request by a user who has a Gamer: when no Event
    matches the primary key, the answer is 400 with the message "Event does
    not exist." and the store is unchanged; when the Event exists, POST
    puts the pair of the Event and the Gamer into the sign-up relation and
    answers 201 with an empty body, and DELETE takes that pair out and
    answers 204. *)
Theorem signup_400_201_204 request pk st gamer :
  Gamer_objects_get fault (auth_user request) st = (inr gamer, st) →
  (fault (OpGet MEvent pk) = None →
   (∀ r, r ∈ events st → row_id r ≠ pk) →
   signup fault request pk st
   = (inr (Some (mkResponse (DataDict [("message", "Event does not exist.")])
                            (VInt 400))), st))
  ∧ (∀ event,
        Event_objects_get fault pk st = (inr event, st) →
        method request = "POST" →
        fault (OpAdd pk (gamer_id gamer)) = None →
        let st' := set_signed_up_by st ({[ (pk, gamer_id gamer) ]} ∪ signed_up_by st) in
        signup fault request pk st
        = (inr (Some (mkResponse (DataDict []) (VInt 201))), st')
        ∧ (pk, gamer_id gamer) ∈ signed_up_by st')
  ∧ (∀ event,
        Event_objects_get fault pk st = (inr event, st) →
        method request = "DELETE" →
        fault (OpRemove pk (gamer_id gamer)) = None →
        let st' := set_signed_up_by st (signed_up_by st ∖ {[ (pk, gamer_id gamer) ]}) in
        signup fault request pk st
        = (inr (Some (mkResponse DataNone (VInt 204))), st')
        ∧ (pk, gamer_id gamer) ∉ signed_up_by st').
Proof.
  intros Hgamer. split; [| split].
  - intros Hf Hno. unfold signup. step Hgamer.
    rewrite (bind_inr _ _ st
               (inl (mkResponse (DataDict [("message", "Event does not exist.")])
                                status.HTTP_400_BAD_REQUEST)) st);
      [reflexivity |].
    erewrite try_except_inl;
      [| apply bind_inl; now apply Event_objects_get_missing].
    reflexivity.
  - intros event Hget Hpost Hf st'.
    split; [| simpl; apply elem_of_union_l; now apply elem_of_singleton].
    rewrite (signup_found request pk st gamer event Hgamer Hget), Hpost. simpl.
    apply try_except_inr.
    apply Event_objects_get_has_pk in Hget as [Hid _].
    now rewrite (bind_inr _ _ _ _ _ (signed_up_by_add_ok event pk gamer st Hid Hf)).
  - intros event Hget Hdelete Hf st'.
    split; [| simpl; intros [_ Hout]%elem_of_difference;
              apply Hout; now apply elem_of_singleton].
    rewrite (signup_found request pk st gamer event Hgamer Hget), Hdelete. simpl.
    apply try_except_inr.
    apply Event_objects_get_has_pk in Hget as [Hid _].
    now rewrite (bind_inr _ _ _ _ _ (signed_up_by_remove_ok event pk gamer st Hid Hf)).
Qed.

(** [signup] on the failures that carry a description. For every signup
    request on an existing Event: when adding to or removing from the
    sign-up relation raises a failure that carries at least one argument,
    the answer has status 200 and a message field holding that first
    argument, and the relation is unchanged. *)
Theorem signup_failure_200 request pk st gamer event ex message :
  Gamer_objects_get fault (auth_user request) st = (inr gamer, st) →
  Event_objects_get fault pk st = (inr event, st) →
  (method request = "POST" ∧ fault (OpAdd pk (gamer_id gamer)) = Some ex)
  ∨ (method request = "DELETE" ∧ fault (OpRemove pk (gamer_id gamer)) = Some ex) →
  args_0 ex = inr message →
  signup fault request pk st
  = (inr (Some (mkResponse (DataDict [("message", message)]) (VInt 200))), st).
Proof.
  intros Hgamer Hget Hfail Hargs.
  rewrite (signup_found request pk st gamer event Hgamer Hget).
  apply Event_objects_get_has_pk in Hget as [Hid _].
  destruct Hfail as [[Hm Hf] | [Hm Hf]]; rewrite Hm; simpl.
  - rewrite (try_except_inl _ _ st ex st).
    + unfold signup_failed, bind, lift. now rewrite Hargs.
    + apply bind_inl. now apply (signed_up_by_add_fault event pk).
  - rewrite (try_except_inl _ _ st ex st).
    + unfold signup_failed, bind, lift. now rewrite Hargs.
    + apply bind_inl. now apply (signed_up_by_remove_fault event pk).
Qed.

(** ** [list] *)

(** [gamer in event.signed_up_by.all()] is membership of the pair in the
    join table, for a gamer of the gamer table. *)
Lemma Gamer_in_signed_up_by gamer pk st :
  gamer ∈ gamers st →
  Gamer_in gamer (filter (λ g, (pk, gamer_id g) ∈ signed_up_by st) (gamers st))
  = bool_decide ((pk, gamer_id gamer) ∈ signed_up_by st).
Proof.
  intros Hin. apply Bool.eq_iff_eq_true. unfold Gamer_in.
  rewrite existsb_exists, bool_decide_eq_true. split.
  - intros (g & Hg & Heq). apply bool_decide_eq_true in Heq.
    apply list_elem_of_In, list_elem_of_filter in Hg as [Hg _].
    now rewrite <- Heq.
  - intros Hmem. exists gamer. split; [| now apply bool_decide_eq_true].
    apply list_elem_of_In, list_elem_of_filter. now split.
Qed.

(** The body of the loop on an instance fresh from its row. *)
Lemma joined_of_row gamer r st :
  gamer ∈ gamers st →
  (attendees <- signed_up_by_all (from_db r) ;;
   ret (set_joined (from_db r) (Gamer_in gamer attendees))) st
  = (inr (set_joined (from_db r)
            (bool_decide ((row_id r, gamer_id gamer) ∈ signed_up_by st))), st).
Proof.
  intros Hin. unfold signed_up_by_all, need_pk, bind, get_store, ret. simpl.
  now rewrite Gamer_in_signed_up_by.
Qed.

(** The loop over instances fresh from their rows: each gets [joined]
    set to the requester's membership, and the loop cannot fail. *)
Lemma joined_loop gamer rows st :
  gamer ∈ gamers st →
  for_each (λ event,
              attendees <- signed_up_by_all event ;;
              ret (set_joined event (Gamer_in gamer attendees)))
           (from_db <$> rows) st
  = (inr ((λ r, set_joined (from_db r)
                  (bool_decide ((row_id r, gamer_id gamer) ∈ signed_up_by st)))
            <$> rows), st).
Proof.
  intros Hin. induction rows as [| r rows IH]; [reflexivity |].
  rewrite !fmap_cons. simpl for_each.
  step (joined_of_row gamer r st Hin). now step IH.
Qed.

Lemma filter_no_filters (rows : list EventRow) :
  List.filter (qs_matches Event_objects_all) rows = rows.
Proof.
  induction rows as [| r rows IH]; [reflexivity |]. simpl. now rewrite IH.
Qed.

Lemma filter_one_game (k : Z) (rows : list EventRow) :
  List.filter (qs_matches (mkQuerySet [k] None)) rows
  = filter (λ r, row_game r = k) rows.
Proof.
  induction rows as [| r rows IH]; [reflexivity |].
  rewrite filter_cons. simpl. unfold qs_matches at 1. simpl.
  rewrite IH, andb_true_r. unfold bool_decide.
  now destruct (decide_rel eq (row_game r) k), (decide (row_game r = k)).
Qed.

(** After the loop the query set holds the instances with [joined] set. *)
Lemma set_joined_each_all gamer st :
  gamer ∈ gamers st →
  set_joined_each gamer Event_objects_all st
  = (inr (mkQuerySet []
            (Some ((λ r, set_joined (from_db r)
                           (bool_decide ((row_id r, gamer_id gamer) ∈ signed_up_by st)))
                     <$> events st))), st).
Proof.
  intros Hin. unfold set_joined_each, qs_fetch_all. simpl.
  unfold bind at 1. unfold bind at 1. simpl.
  rewrite filter_no_filters.
  rewrite (bind_inr _ _ _ _ _ (joined_loop gamer (events st) st Hin)).
  reflexivity.
Qed.

(** What [list] answers once the Gamer is found: without [gameId], the
    serialization of the instances of the loop; with [gameId], the
    serialization of new instances of the rows of that game. *)
Lemma list_answer_run items st (events : QuerySet) :
  EventSerializer_many events st = for_each EventSerializer items st →
  (serializer_data <- EventSerializer_many events ;;
   ret (Response_default (DataEvents serializer_data))) st
  = list_answer items st.
Proof.
  intros Hrun. unfold bind, list_answer. rewrite Hrun.
  pose proof (reads_only_for_each EventSerializer items
                reads_only_EventSerializer st) as Hst.
  destruct (for_each EventSerializer items st) as [[ex | js] st'];
    simpl in *; now subst.
Qed.

Lemma list_without_gameId request st gamer :
  Gamer_objects_get fault (auth_user request) st = (inr gamer, st) →
  query_params request !! "gameId" = None →
  list_ fault py_int request st
  = list_answer
      ((λ r, set_joined (from_db r)
               (bool_decide ((row_id r, gamer_id gamer) ∈ signed_up_by st)))
         <$> events st) st.
Proof.
  intros Hgamer Hnone. unfold list_. step Hgamer.
  apply Gamer_objects_get_inr in Hgamer as (_ & Hin & _).
  step (set_joined_each_all gamer st Hin). rewrite Hnone.
  unfold bind at 1. simpl. now apply list_answer_run.
Qed.

Lemma list_with_gameId request st gamer game k :
  Gamer_objects_get fault (auth_user request) st = (inr gamer, st) →
  query_params request !! "gameId" = Some game →
  py_int game = Some k →
  list_ fault py_int request st
  = list_answer (from_db <$> filter (λ r, row_game r = k) (events st)) st.
Proof.
  intros Hgamer Hgame Hk. unfold list_. step Hgamer.
  apply Gamer_objects_get_inr in Hgamer as (_ & Hin & _).
  step (set_joined_each_all gamer st Hin). rewrite Hgame.
  unfold qs_filter_game_id, to_pk. rewrite Hk.
  unfold bind at 1. simpl. apply list_answer_run.
  unfold EventSerializer_many, qs_fetch_all, bind. simpl.
  now rewrite filter_one_game.
Qed.

(** The serializer copies [id] and [joined] from the instance. *)
Lemma EventSerializer_inr event st j st' :
  EventSerializer event st = (inr j, st') →
  j_id j = ev_id event ∧ j_joined j = ev_joined event.
Proof.
  unfold EventSerializer, bind.
  repeat match goal with
         | |- context [match ?x with _ => _ end] => destruct x
         end; try discriminate.
  intros H. inversion H. now subst.
Qed.

Lemma for_each_EventSerializer_inr items st js st' :
  for_each EventSerializer items st = (inr js, st') →
  Forall2 (λ event j, j_id j = ev_id event ∧ j_joined j = ev_joined event)
          items js.
Proof.
  revert st js st'. induction items as [| event items IH]; intros st js st'.
  - simpl. intros H. inversion H. constructor.
  - simpl. unfold bind at 1.
    destruct (EventSerializer event st) as [[ex | j] st1] eqn:Hj; [discriminate |].
    unfold bind at 1.
    destruct (for_each EventSerializer items st1) as [[ex | js1] st2] eqn:Hjs;
      [discriminate |].
    intros H. inversion H; subst. constructor.
    + now apply EventSerializer_inr in Hj.
    + now apply IH in Hjs.
Qed.

(** Without [gameId], every Event of the table is rendered, with [joined]
    true exactly when the requester's Gamer is in its sign-up set. *)
Lemma list_without_gameId_joined request st gamer js st' status_code :
  Gamer_objects_get fault (auth_user request) st = (inr gamer, st) →
  query_params request !! "gameId" = None →
  list_ fault py_int request st = (inr (mkResponse (DataEvents js) status_code), st') →
  Forall2 (λ r j,
             j_id j = Some (row_id r)
             ∧ j_joined j
               = Some (bool_decide ((row_id r, gamer_id gamer) ∈ signed_up_by st)))
          (events st) js.
Proof.
  intros Hgamer Hnone. rewrite (list_without_gameId request st gamer Hgamer Hnone).
  unfold list_answer.
  destruct (for_each EventSerializer _ st) as [[ex | js1] st1] eqn:Hjs;
    simpl; intros H; inversion H; subst.
  apply for_each_EventSerializer_inr in Hjs.
  apply Forall2_fmap_l in Hjs. eapply Forall2_impl; [exact Hjs |].
  now intros r j.
Qed.

(** With [gameId], the Events rendered are exactly those of that game, in
    table order, and none of them has a [joined] to render. *)
Lemma list_with_gameId_exact request st gamer game k js st' status_code :
  Gamer_objects_get fault (auth_user request) st = (inr gamer, st) →
  query_params request !! "gameId" = Some game →
  py_int game = Some k →
  list_ fault py_int request st = (inr (mkResponse (DataEvents js) status_code), st') →
  Forall2 (λ r j, j_id j = Some (row_id r) ∧ j_joined j = None)
          (filter (λ r, row_game r = k) (events st)) js.
Proof.
  intros Hgamer Hgame Hk.
  rewrite (list_with_gameId request st gamer game k Hgamer Hgame Hk).
  unfold list_answer.
  destruct (for_each EventSerializer _ st) as [[ex | js1] st1] eqn:Hjs;
    simpl; intros H; inversion H; subst.
  apply for_each_EventSerializer_inr in Hjs.
  apply Forall2_fmap_l in Hjs. eapply Forall2_impl; [exact Hjs |].
  now intros r j.
Qed.

End Facts.

(** * The handlers on the small database *)

Lemma rows_all {A : Type} (P : A → Prop) (l : list A) :
  Forall P l → ∀ x, x ∈ l → P x.
Proof. intros H. now apply Forall_forall. Qed.

Ltac none_of_rows :=
  apply rows_all; repeat constructor; simpl; lia.

(** C1 on the small database: Ada posts an event whose body names Bob's
    gamer as host. *)
Lemma create_status_1_host_requester_witness :
  (∃ row, events (create no_fault decimal create_request demo).2
          = events demo ++ [row]
          ∧ row_status row = 1
          ∧ row_host row = gamer_id gamer_ada
          ∧ gamer_ada ∈ gamers demo
          ∧ gamer_user gamer_ada = user_id (auth_user create_request))
  ∧ ∀ h, create no_fault decimal
                (set_data create_request (<["host" := h]> (data create_request))) demo
         = create no_fault decimal create_request demo.
Proof.
  apply (create_status_1_host_requester no_fault decimal create_request demo
           (VStr "Quiz") (VStr "18:00") (VInt 3) gamer_ada trivia status_open);
    vm_compute; reflexivity.
Defined.

(** C9 on the small database: the row is taken, and the row is refused. *)
Lemma create_201_or_400_witness :
  create no_fault decimal create_request demo
  = (inr (mkResponse
            (DataEvent
               (mkEventJSON (Some 3) (GameSerializer trivia)
                            (mkEventGamerJSON (EventUserSerializer ada))
                            (VStr "Quiz") (VStr "18:00")
                            (StatusSerializer status_open) None))
            (VInt 201)),
     set_events demo [trivia_night; blitz;
                      mkEventRow 3 (VStr "Quiz") (VStr "18:00") 7 3 1])
  ∧ create (fault_on is_save (ValidationError "invalid time")) decimal
           create_request demo
    = (inr (mkResponse (DataDict [("reason", "invalid time")]) (VInt 400)), demo).
Proof.
  split.
  - apply (proj1 (create_201_or_400 no_fault decimal create_request demo
                    (VStr "Quiz") (VStr "18:00") (VInt 3) gamer_ada trivia status_open
                    eq_refl eq_refl eq_refl eq_refl eq_refl eq_refl) ada);
      vm_compute; reflexivity.
  - apply (create_201_or_400 (fault_on is_save (ValidationError "invalid time"))
             decimal create_request demo
             (VStr "Quiz") (VStr "18:00") (VInt 3) gamer_ada trivia status_open);
      vm_compute; reflexivity.
Defined.

(** C10 on the small database: a game_id without a Game, and a database
    without Status 1. *)
Lemma create_lookup_failure_escapes_witness :
  create no_fault decimal create_request_no_game demo
  = (inl (Raised (DoesNotExist MGame) ["Game matching query does not exist."]), demo)
  ∧ create no_fault decimal create_request demo_no_status_1
    = (inl (Raised (DoesNotExist MStatus) ["Status matching query does not exist."]),
       demo_no_status_1).
Proof.
  split.
  - apply (proj1 (proj2 (proj2
             (create_lookup_failure_escapes no_fault decimal create_request_no_game
                demo (VStr "Quiz") (VStr "18:00") (VInt 99) gamer_ada
                eq_refl eq_refl eq_refl eq_refl))) 99);
      [reflexivity | reflexivity | none_of_rows].
  - apply (proj2 (proj2 (proj2
             (create_lookup_failure_escapes no_fault decimal create_request
                demo_no_status_1 (VStr "Quiz") (VStr "18:00") (VInt 3) gamer_ada
                eq_refl eq_refl eq_refl eq_refl))) trivia);
      [reflexivity | reflexivity | none_of_rows].
Defined.

(** C8 on the small database: an Event that is there, one that is not, and
    a key with two rows. *)
Lemma retrieve_200_or_500_witness :
  retrieve no_fault (request_by ada "GET") 2 demo
  = (inr (mkResponse
            (DataEvent
               (mkEventJSON (Some 2) (GameSerializer chess)
                            (mkEventGamerJSON (EventUserSerializer bob))
                            (VStr "Blitz") (VStr "20:00")
                            (StatusSerializer status_open) None))
            (VInt 200)), demo)
  ∧ retrieve no_fault (request_by ada "GET") 999 demo
    = (inr (mkResponse
              (DataContent (Raised (DoesNotExist MEvent)
                                   ["Event matching query does not exist."]))
              (VInt 500)), demo)
  ∧ retrieve no_fault (request_by ada "GET") 1 demo_twice
    = (inr (mkResponse
              (DataContent (Raised (MultipleObjectsReturned MEvent)
                                   ["get() returned more than one Event"]))
              (VInt 500)), demo_twice)
  ∧ retrieve (fault_on (λ _, true) locked) (request_by ada "GET") 1 demo
    = (inr (mkResponse (DataContent locked) (VInt 500)), demo).
Proof.
  split; [| split; [| split]].
  - apply (proj1 (retrieve_200_or_500 no_fault (request_by ada "GET") 2 demo)
             (from_db blitz));
      vm_compute; reflexivity.
  - apply (retrieve_200_or_500 no_fault (request_by ada "GET") 999 demo);
      [reflexivity | none_of_rows].
  - apply (retrieve_200_or_500 no_fault (request_by ada "GET") 1 demo_twice)
      with (r1 := trivia_night) (r2 := trivia_night) (rest := []);
      vm_compute; reflexivity.
  - apply (retrieve_200_or_500 (fault_on (λ _, true) locked)
             (request_by ada "GET") 1 demo);
      vm_compute; reflexivity.
Defined.

(** C5 on the small database: a key without Event, Bob signing up for
    event 1 and Ada leaving it. *)
Lemma signup_400_201_204_witness :
  signup no_fault (request_by ada "DELETE") 999 demo
  = (inr (Some (mkResponse (DataDict [("message", "Event does not exist.")])
                           (VInt 400))), demo)
  ∧ (signup no_fault (request_by bob "POST") 1 demo
     = (inr (Some (mkResponse (DataDict []) (VInt 201))),
        set_signed_up_by demo ({[ (1, 8) ]} ∪ signed_up_by demo))
     ∧ (1, 8) ∈ signed_up_by (set_signed_up_by demo ({[ (1, 8) ]} ∪ signed_up_by demo)))
  ∧ (signup no_fault (request_by ada "DELETE") 1 demo
     = (inr (Some (mkResponse DataNone (VInt 204))),
        set_signed_up_by demo (signed_up_by demo ∖ {[ (1, 7) ]}))
     ∧ (1, 7) ∉ signed_up_by (set_signed_up_by demo (signed_up_by demo ∖ {[ (1, 7) ]}))).
Proof.
  split; [| split].
  - apply (signup_400_201_204 no_fault (request_by ada "DELETE") 999 demo gamer_ada);
      [reflexivity | reflexivity | none_of_rows].
  - apply (proj1 (proj2 (signup_400_201_204 no_fault (request_by bob "POST") 1 demo
                           gamer_bob eq_refl))
             (from_db trivia_night));
      reflexivity.
  - apply (proj2 (proj2 (signup_400_201_204 no_fault (request_by ada "DELETE") 1 demo
                           gamer_ada eq_refl))
             (from_db trivia_night));
      reflexivity.
Defined.

(** The database is locked when Bob signs up, and when Ada leaves. *)
Lemma signup_failure_200_witness :
  signup (fault_on is_add locked) (request_by bob "POST") 1 demo
  = (inr (Some (mkResponse (DataDict [("message", "database is locked")])
                           (VInt 200))), demo)
  ∧ signup (fault_on is_remove locked) (request_by ada "DELETE") 1 demo
    = (inr (Some (mkResponse (DataDict [("message", "database is locked")])
                             (VInt 200))), demo).
Proof.
  split.
  - apply (signup_failure_200 (fault_on is_add locked) (request_by bob "POST") 1
             demo gamer_bob (from_db trivia_night) locked "database is locked");
      try reflexivity.
    left. split; reflexivity.
  - apply (signup_failure_200 (fault_on is_remove locked) (request_by ada "DELETE") 1
             demo gamer_ada (from_db trivia_night) locked "database is locked");
      try reflexivity.
    right. split; reflexivity.
Defined.

(** C6 does not hold of the code. POST /events/1/signup by Bob on the
    existing event 1, where [add] raises a failure whose [args] is empty:
    the [except Exception] clause of [signup], written to answer every
    failure, itself fails on [ex.args[0]] with [IndexError].  No response
    of status 200, nor any other, is returned. *)
Lemma signup_bare_failure_no_response :
  Gamer_objects_get (fault_on is_add bare_failure) bob demo = (inr gamer_bob, demo)
  ∧ Event_objects_get (fault_on is_add bare_failure) 1 demo
    = (inr (from_db trivia_night), demo)
  ∧ fault_on is_add bare_failure (OpAdd 1 (gamer_id gamer_bob)) = Some bare_failure
  ∧ signup (fault_on is_add bare_failure) (request_by bob "POST") 1 demo
    = (inl (Raised IndexError ["tuple index out of range"]), demo)
  ∧ ¬ ∃ response st',
        signup (fault_on is_add bare_failure) (request_by bob "POST") 1 demo
        = (inr (Some response), st')
        ∧ status_code response = VInt 200.
Proof.
  assert (Hrun : signup (fault_on is_add bare_failure) (request_by bob "POST") 1 demo
                 = (inl (Raised IndexError ["tuple index out of range"]), demo))
    by (vm_compute; reflexivity).
  repeat (split; [first [exact Hrun | reflexivity] |]).
  intros (response & st' & Heq & _). rewrite Hrun in Heq. discriminate.
Qed.

(** Event 1 deleted, a key without Event, a locked database, and a key
    with two rows. *)
Lemma destroy_204_404_500_witness :
  (destroy no_fault (request_by ada "DELETE") 1 demo
   = (inr (mkResponse (DataDict []) (VInt 204)),
      set_signed_up_by
        (set_events demo (filter (λ r, row_id r ≠ 1) (events demo)))
        (filter (λ p, p.1 ≠ 1) (signed_up_by demo)))
   ∧ ∀ r, r ∈ filter (λ r, row_id r ≠ 1) (events demo) → row_id r ≠ 1)
  ∧ destroy no_fault (request_by ada "DELETE") 999 demo
    = (inr (mkResponse
              (DataDict [("message", "Event matching query does not exist.")])
              (VInt 404)), demo)
  ∧ destroy (fault_on is_delete locked) (request_by ada "DELETE") 1 demo
    = (inr (mkResponse (DataDict [("message", "database is locked")]) (VInt 500)),
       demo)
  ∧ destroy no_fault (request_by ada "DELETE") 1 demo_twice
    = (inr (mkResponse (DataDict [("message", "get() returned more than one Event")])
                       (VInt 500)),
       demo_twice).
Proof.
  split; [| split; [| split]].
  - apply (proj1 (destroy_204_404_500 no_fault (request_by ada "DELETE") 1 demo)
             (from_db trivia_night));
      reflexivity.
  - apply (destroy_204_404_500 no_fault (request_by ada "DELETE") 999 demo);
      [reflexivity | none_of_rows].
  - apply (proj2 (proj2 (destroy_204_404_500 (fault_on is_delete locked)
                           (request_by ada "DELETE") 1 demo))
             locked "database is locked");
      try reflexivity.
    right. exists (from_db trivia_night). split; reflexivity.
  - apply (proj2 (proj2 (destroy_204_404_500 no_fault
                           (request_by ada "DELETE") 1 demo_twice))
             (Raised (MultipleObjectsReturned MEvent)
                     ["get() returned more than one Event"])
             "get() returned more than one Event");
      try reflexivity.
    left. reflexivity.
Defined.

(** C7 does not hold of the code. DELETE /events/1 by Ada on the existing
    event 1, where the deletion raises a failure whose [args] is empty: the
    [except Exception] clause of [destroy], written to answer every other
    failure with 500, itself fails on [ex.args[0]] with [IndexError].  No
    response of status 500, nor any other, is returned. *)
Lemma destroy_bare_failure_no_response :
  Event_objects_get (fault_on is_delete bare_failure) 1 demo
  = (inr (from_db trivia_night), demo)
  ∧ fault_on is_delete bare_failure (OpDelete 1) = Some bare_failure
  ∧ destroy (fault_on is_delete bare_failure) (request_by ada "DELETE") 1 demo
    = (inl (Raised IndexError ["tuple index out of range"]), demo)
  ∧ ¬ ∃ response st',
        destroy (fault_on is_delete bare_failure) (request_by ada "DELETE") 1 demo
        = (inr response, st')
        ∧ status_code response = VInt 500.
Proof.
  assert (Hrun : destroy (fault_on is_delete bare_failure)
                         (request_by ada "DELETE") 1 demo
                 = (inl (Raised IndexError ["tuple index out of range"]), demo))
    by (vm_compute; reflexivity).
  repeat (split; [first [exact Hrun | reflexivity] |]).
  intros (response & st' & Heq & _). rewrite Hrun in Heq. discriminate.
Qed.

(** C2 does not hold of the code. PUT /events/1 by Ada with name, time,
    gameId 4 and statusId 2, where Event 1, Game 4 and Status 2 exist: the
    row is rewritten, and then [update] raises [AttributeError], because
    the [status] whose HTTP_204_NO_CONTENT it reads is the Status row.  No
    response, and so no 204, is returned. *)
Theorem update_valid_request_raises :
  Event_objects_get no_fault 1 demo = (inr (from_db trivia_night), demo)
  ∧ Game_objects_get no_fault decimal (VInt 4) demo = (inr chess, demo)
  ∧ Status_objects_get no_fault decimal (VInt 2) demo = (inr status_closed, demo)
  ∧ update no_fault decimal update_request 1 demo
    = (inl (Raised AttributeError
                   ["'Status' object has no attribute 'HTTP_204_NO_CONTENT'"]),
       set_events demo [mkEventRow 1 (VStr "Quiz") (VStr "18:00") 7 4 2; blitz]).
Proof.
  repeat (split; [reflexivity |]).
  apply (update_saves_then_raises no_fault decimal update_request 1 demo
           (from_db trivia_night) (VStr "Quiz") (VStr "18:00") (VInt 4) (VInt 2)
           gamer_ada chess status_closed);
    reflexivity.
Qed.

(** C3 does not hold of the code. GET /events?gameId=3 by Ada: the response
    holds exactly the Events of game 3 (event 1), but rendered from new
    instances, on which [joined] was never set: the one rendered Event has
    no [joined]. *)
Theorem list_gameId_renders_no_joined :
  list_ no_fault decimal list_request_game_3 demo
  = (inr (mkResponse
            (DataEvents
               [mkEventJSON (Some 1) (GameSerializer trivia)
                            (mkEventGamerJSON (EventUserSerializer bob))
                            (VStr "Trivia Night") (VStr "19:00")
                            (StatusSerializer status_open) None])
            (VInt 200)), demo).
Proof.
  rewrite (list_with_gameId no_fault decimal list_request_game_3 demo
             gamer_ada "3" 3);
    reflexivity.
Qed.

(** C4 does not hold of the code. Ada's Gamer is in the sign-up set of
    event 1.  GET /events by Ada renders event 1 with [joined] true, but
    GET /events?gameId=3 by Ada renders the same event without a [joined]
    that is true. *)
Theorem list_gameId_joined_is_not_membership :
  Gamer_objects_get no_fault (auth_user list_request_game_3) demo
  = (inr gamer_ada, demo)
  ∧ (1, gamer_id gamer_ada) ∈ signed_up_by demo
  ∧ (∃ js j, list_ no_fault decimal list_request demo
             = (inr (mkResponse (DataEvents js) (VInt 200)), demo)
             ∧ j ∈ js ∧ j_id j = Some 1 ∧ j_joined j = Some true)
  ∧ (∃ js j, list_ no_fault decimal list_request_game_3 demo
             = (inr (mkResponse (DataEvents js) (VInt 200)), demo)
             ∧ j ∈ js ∧ j_id j = Some 1 ∧ j_joined j ≠ Some true).
Proof.
  split; [reflexivity |].
  split; [apply (bool_decide_unpack _); vm_compute; exact I |].
  split.
  - eexists. eexists. split.
    + rewrite (list_without_gameId no_fault decimal list_request demo gamer_ada);
        [| reflexivity | reflexivity].
      vm_compute. reflexivity.
    + split; [left |]. now split.
  - eexists. eexists. split.
    + rewrite (list_with_gameId no_fault decimal list_request_game_3 demo
                 gamer_ada "3" 3);
        [| reflexivity | reflexivity | reflexivity].
      vm_compute. reflexivity.
    + split; [left |]. now split.
Qed.

(** * Further properties of the handlers *)

#[local] Set Warnings "-clear-no-such-hyp".

Lemma bind_cases {A B : Type} (m : M A) (k : A → M B) st :
  reads_only m →
  (∃ ex, m st = (inl ex, st) ∧ bind m k st = (inl ex, st))
  ∨ (∃ a, m st = (inr a, st) ∧ bind m k st = k a st).
Proof.
  intros Hm. specialize (Hm st). unfold bind.
  destruct (m st) as [[ex | a] st1]; simpl in Hm; subst st1; eauto.
Qed.

Lemma reads_only_data_get request key : reads_only (data_get request key).
Proof. unfold data_get. destruct (data request !! key); auto with reads. Qed.

Lemma reads_only_need_pk event : reads_only (need_pk event).
Proof. unfold need_pk. destruct (ev_id event); auto with reads. Qed.

Section More.

Variable fault : db_op → option exn.
Variable py_int : string → option Z.

Lemma reads_only_Event_objects_get pk : reads_only (Event_objects_get fault pk).
Proof. apply reads_only_query. Qed.

Lemma reads_only_Gamer_objects_get user : reads_only (Gamer_objects_get fault user).
Proof. apply reads_only_query. Qed.

Lemma reads_only_Game_objects_get v : reads_only (Game_objects_get fault py_int v).
Proof.
  unfold Game_objects_get. apply reads_only_bind; [apply reads_only_lift |].
  intros pk. apply reads_only_query.
Qed.

Lemma reads_only_Status_objects_get v : reads_only (Status_objects_get fault py_int v).
Proof.
  unfold Status_objects_get. apply reads_only_bind; [apply reads_only_lift |].
  intros pk. apply reads_only_query.
Qed.

Lemma reads_only_signed_up_by_all event : reads_only (signed_up_by_all event).
Proof.
  unfold signed_up_by_all. apply reads_only_bind; [apply reads_only_need_pk |].
  intros pk. apply reads_only_bind; [apply reads_only_get_store |].
  intros st. apply reads_only_ret.
Qed.

Lemma reads_only_qs_fetch_all q : reads_only (qs_fetch_all q).
Proof.
  unfold qs_fetch_all. destruct (qs_result_cache q); [apply reads_only_ret |].
  apply reads_only_bind; [apply reads_only_get_store |].
  intros st. apply reads_only_ret.
Qed.

(** The two GET handlers never write: whatever the request, the database
    fault and the tables, [retrieve] and [list] leave the store as it
    is. *)
Theorem retrieve_and_list_write_nothing request pk st :
  (retrieve fault request pk st).2 = st
  ∧ (list_ fault py_int request st).2 = st.
Proof.
  split.
  - apply (reads_only_try_except _ _).
    + apply reads_only_bind; [apply reads_only_Event_objects_get |].
      intros event. apply reads_only_bind; [apply reads_only_EventSerializer |].
      intros d. apply reads_only_ret.
    + intros ex. apply reads_only_ret.
  - unfold list_.
    apply (reads_only_bind _ _ (reads_only_Gamer_objects_get _)). intros gamer.
    apply reads_only_bind.
    + unfold set_joined_each.
      apply (reads_only_bind _ _ (reads_only_qs_fetch_all _)). intros fetched.
      apply reads_only_bind; [| intros items; apply reads_only_ret].
      apply reads_only_for_each. intros event.
      apply (reads_only_bind _ _ (reads_only_signed_up_by_all _)).
      intros attendees. apply reads_only_ret.
    + intros events. apply reads_only_bind.
      * destruct (query_params request !! "gameId"); [| apply reads_only_ret].
        unfold qs_filter_game_id.
        apply reads_only_bind; [apply reads_only_lift |].
        intros g. apply reads_only_ret.
      * intros events'. apply reads_only_bind; [| intros d; apply reads_only_ret].
        unfold EventSerializer_many.
        apply (reads_only_bind _ _ (reads_only_qs_fetch_all _)). intros fetched.
        apply reads_only_for_each, reads_only_EventSerializer.
Qed.

(** One step of a handler run [H] whose step only reads: it fails, and the
    handler with it, or it returns and the handler goes on. *)
Ltac reads H Hro a Ha :=
  match type of H with
  | context [bind ?m ?k ?st] =>
      let ex := fresh "ex" in
      let Hfail := fresh "Hfail" in
      let Hrun := fresh "Hrun" in
      destruct (bind_cases m k st Hro) as [(ex & Hfail & Hrun) | (a & Ha & Hrun)];
      rewrite Hrun in H; clear Hrun;
      [inversion H; subst; clear H |]
  end.

Lemma create_run request st r st' :
  create fault py_int request st = (r, st') →
  st' = st
  ∨ ∃ row, st' = set_events st (events st ++ [row])
           ∧ row_status row = 1
           ∧ ∀ r, r ∈ events st → row_id r ≠ row_id row.
Proof.
  unfold create. intros H.
  reads H (reads_only_data_get request "name") name Hname; [now left |].
  reads H (reads_only_data_get request "time") time Htime; [now left |].
  reads H (reads_only_Gamer_objects_get (auth_user request)) gamer Hgamer;
    [now left |].
  reads H (reads_only_data_get request "game_id") game_pk Hgid; [now left |].
  reads H (reads_only_Game_objects_get game_pk) game Hgame; [now left |].
  reads H (reads_only_Status_objects_get (VInt 1)) event_status Hstatus;
    [now left |].
  apply Status_objects_get_inr in Hstatus as (_ & _ & Hone).
  simpl in Hone. inversion Hone as [Hone'].
  unfold try_except, bind, Event_save in H. simpl in H.
  destruct (fault _) as [ex |].
  - left. destruct ex; now inversion H.
  - rewrite has_pk_fresh in H. right.
    exists (mkEventRow (fresh_pk (events st)) name time
                       (gamer_id gamer) (game_id game) (status_id event_status)).
    split; [| split; [now simpl |]].
    + match type of H with
      | context [EventSerializer ?e ?s] =>
          pose proof (reads_only_EventSerializer e s) as Hser;
          destruct (EventSerializer e s) as [[ex | d] st1]
      end; simpl in Hser; subst st1.
      * destruct ex; now inversion H.
      * now inversion H.
    + intros r0 Hr. apply fresh_pk_above in Hr. simpl. lia.
Qed.

(** [create] writes at most one row: whatever the request and the database
    fault, it leaves the users, gamers, games, statuses and sign-ups as
    they are, and the event table is either unchanged or longer by one row,
    whose status is 1 and whose key no row had before. *)
Theorem create_writes_at_most_one_row request st :
  same_reference_tables st (create fault py_int request st).2
  ∧ signed_up_by (create fault py_int request st).2 = signed_up_by st
  ∧ (events (create fault py_int request st).2 = events st
     ∨ ∃ row, events (create fault py_int request st).2 = events st ++ [row]
              ∧ row_status row = 1
              ∧ ∀ r, r ∈ events st → row_id r ≠ row_id row).
Proof.
  destruct (create fault py_int request st) as [r st'] eqn:Hrun.
  apply create_run in Hrun as [-> | (row & -> & Hstatus & Hfresh)]; simpl.
  - repeat split. now left.
  - repeat split. right. now exists row.
Qed.

(** ** Signing up and leaving *)

Lemma set_signed_up_by_same st j :
  j = signed_up_by st → set_signed_up_by st j = st.
Proof. intros ->. now destruct st. Qed.

Lemma set_signed_up_by_twice st j1 j2 :
  set_signed_up_by (set_signed_up_by st j1) j2 = set_signed_up_by st j2.
Proof. reflexivity. Qed.

(** The lookups of [signup] do not read the sign-ups. *)
Lemma Gamer_objects_get_after_signup user st gamer j :
  Gamer_objects_get fault user st = (inr gamer, st) →
  Gamer_objects_get fault user (set_signed_up_by st j)
  = (inr gamer, set_signed_up_by st j).
Proof.
  unfold Gamer_objects_get, query. simpl.
  destruct (fault _); intros H; inversion H as [Hrow]. now rewrite Hrow.
Qed.

Lemma Event_objects_get_after_signup pk st event j :
  Event_objects_get fault pk st = (inr event, st) →
  Event_objects_get fault pk (set_signed_up_by st j)
  = (inr event, set_signed_up_by st j).
Proof.
  unfold Event_objects_get, query. simpl.
  destruct (fault _); intros H; inversion H as [Hrow]. now rewrite Hrow.
Qed.

Lemma signup_post request pk st gamer event :
  Gamer_objects_get fault (auth_user request) st = (inr gamer, st) →
  Event_objects_get fault pk st = (inr event, st) →
  method request = "POST" →
  fault (OpAdd pk (gamer_id gamer)) = None →
  signup fault request pk st
  = (inr (Some (mkResponse (DataDict []) (VInt 201))),
     set_signed_up_by st ({[ (pk, gamer_id gamer) ]} ∪ signed_up_by st)).
Proof.
  intros Hgamer Hget Hpost Hf.
  rewrite (signup_found fault request pk st gamer event Hgamer Hget), Hpost. simpl.
  apply try_except_inr.
  apply Event_objects_get_has_pk in Hget as [Hid _].
  now rewrite (bind_inr _ _ _ _ _ (signed_up_by_add_ok fault event pk gamer st Hid Hf)).
Qed.

Lemma signup_delete request pk st gamer event :
  Gamer_objects_get fault (auth_user request) st = (inr gamer, st) →
  Event_objects_get fault pk st = (inr event, st) →
  method request = "DELETE" →
  fault (OpRemove pk (gamer_id gamer)) = None →
  signup fault request pk st
  = (inr (Some (mkResponse DataNone (VInt 204))),
     set_signed_up_by st (signed_up_by st ∖ {[ (pk, gamer_id gamer) ]})).
Proof.
  intros Hgamer Hget Hdelete Hf.
  rewrite (signup_found fault request pk st gamer event Hgamer Hget), Hdelete. simpl.
  apply try_except_inr.
  apply Event_objects_get_has_pk in Hget as [Hid _].
  now rewrite (bind_inr _ _ _ _ _
                 (signed_up_by_remove_ok fault event pk gamer st Hid Hf)).
Qed.

(** Signing up and then leaving: a POST on an existing Event followed by a
    DELETE of the same user answers 201 and then 204, and afterwards the
    Gamer is not in the Event's sign-up set, whether or not it was there
    before; every other sign-up is as before, and if the Gamer had not
    signed up before, the store is back where it started. *)
Theorem signup_then_leave post delete pk st gamer event :
  auth_user delete = auth_user post →
  method post = "POST" →
  method delete = "DELETE" →
  Gamer_objects_get fault (auth_user post) st = (inr gamer, st) →
  Event_objects_get fault pk st = (inr event, st) →
  fault (OpAdd pk (gamer_id gamer)) = None →
  fault (OpRemove pk (gamer_id gamer)) = None →
  ∃ st1 st2,
    signup fault post pk st
    = (inr (Some (mkResponse (DataDict []) (VInt 201))), st1)
    ∧ signup fault delete pk st1
      = (inr (Some (mkResponse DataNone (VInt 204))), st2)
    ∧ ((pk, gamer_id gamer) ∉ signed_up_by st2)
    ∧ (∀ p, p ≠ (pk, gamer_id gamer) →
            (p ∈ signed_up_by st2 ↔ p ∈ signed_up_by st))
    ∧ ((pk, gamer_id gamer) ∉ signed_up_by st → st2 = st).
Proof.
  intros Huser Hpost Hdelete Hgamer Hget Hadd Hremove.
  eexists. eexists. split; [| split].
  - now apply (signup_post post pk st gamer event).
  - apply (signup_delete delete pk _ gamer event); try done.
    + rewrite Huser. now apply Gamer_objects_get_after_signup.
    + now apply Event_objects_get_after_signup.
  - simpl. split; [set_solver |]. split; [set_solver |].
    intros Hout. rewrite set_signed_up_by_twice.
    apply set_signed_up_by_same. set_solver.
Qed.

(** Repeating oneself changes nothing: a POST by a Gamer who is already
    signed up answers 201, a DELETE by a Gamer who is not signed up answers
    204, and both leave the store as it is. *)
Theorem signup_again_changes_nothing request pk st gamer event :
  Gamer_objects_get fault (auth_user request) st = (inr gamer, st) →
  Event_objects_get fault pk st = (inr event, st) →
  (method request = "POST" →
   fault (OpAdd pk (gamer_id gamer)) = None →
   (pk, gamer_id gamer) ∈ signed_up_by st →
   signup fault request pk st
   = (inr (Some (mkResponse (DataDict []) (VInt 201))), st))
  ∧ (method request = "DELETE" →
     fault (OpRemove pk (gamer_id gamer)) = None →
     (pk, gamer_id gamer) ∉ signed_up_by st →
     signup fault request pk st
     = (inr (Some (mkResponse DataNone (VInt 204))), st)).
Proof.
  intros Hgamer Hget. split.
  - intros Hpost Hadd Hin.
    rewrite (signup_post request pk st gamer event) by done.
    f_equal. apply set_signed_up_by_same. set_solver.
  - intros Hdelete Hremove Hout.
    rewrite (signup_delete request pk st gamer event) by done.
    f_equal. apply set_signed_up_by_same. set_solver.
Qed.

(** The first [try] of [signup]: it only reads, and when it hands on an
    Event, that is the one the lookup returned. *)
Lemma reads_only_signup_lookup pk :
  reads_only
    (try_except
       (event <- Event_objects_get fault pk ;; ret (inr event))
       (λ ex,
          if is_Event_DoesNotExist ex then
            ret (inl (mkResponse (DataDict [("message", "Event does not exist.")])
                                 status.HTTP_400_BAD_REQUEST))
          else raise ex)).
Proof.
  apply reads_only_try_except.
  - apply reads_only_bind; [apply reads_only_Event_objects_get |].
    intros event. apply reads_only_ret.
  - intros ex. destruct (is_Event_DoesNotExist ex); auto with reads.
Qed.

Lemma signup_lookup_inr pk st event :
  try_except
    (event <- Event_objects_get fault pk ;; ret (inr event))
    (λ ex,
       if is_Event_DoesNotExist ex then
         ret (inl (mkResponse (DataDict [("message", "Event does not exist.")])
                              status.HTTP_400_BAD_REQUEST))
       else raise ex) st
  = (inr (inr event), st) →
  Event_objects_get fault pk st = (inr event, st).
Proof.
  unfold try_except, bind.
  pose proof (reads_only_Event_objects_get pk st) as Hst.
  destruct (Event_objects_get fault pk st) as [[ex | e] st1]; simpl in Hst; subst st1.
  - destruct (is_Event_DoesNotExist ex); discriminate.
  - intros H. now inversion H.
Qed.

Lemma signup_failed_run ex st r st' :
  signup_failed ex st = (r, st') → st' = st.
Proof.
  unfold signup_failed, bind, lift. destruct (args_0 ex); intros H; now inversion H.
Qed.

Lemma signup_run request pk st r st' :
  signup fault request pk st = (r, st') →
  st' = st
  ∨ ∃ gamer,
      Gamer_objects_get fault (auth_user request) st = (inr gamer, st)
      ∧ (st' = set_signed_up_by st ({[ (pk, gamer_id gamer) ]} ∪ signed_up_by st)
         ∨ st' = set_signed_up_by st (signed_up_by st ∖ {[ (pk, gamer_id gamer) ]})).
Proof.
  unfold signup. intros H.
  reads H (reads_only_Gamer_objects_get (auth_user request)) gamer Hgamer;
    [now left |].
  reads H (reads_only_signup_lookup pk) found Hfound; [now left |].
  destruct found as [response | event]; [left; now inversion H |].
  apply signup_lookup_inr, Event_objects_get_has_pk in Hfound as [Hid _].
  destruct (String.eqb (method request) "POST").
  - destruct (fault (OpAdd pk (gamer_id gamer))) as [ex |] eqn:Hf.
    + rewrite (try_except_inl _ _ st ex st) in H
        by (apply bind_inl; now apply (signed_up_by_add_fault fault event pk)).
      left. now apply signup_failed_run in H.
    + erewrite try_except_inr in H
        by (now rewrite (bind_inr _ _ _ _ _
                           (signed_up_by_add_ok fault event pk gamer st Hid Hf))).
      right. exists gamer. split; [done |]. left. now inversion H.
  - destruct (String.eqb (method request) "DELETE"); [| left; now inversion H].
    destruct (fault (OpRemove pk (gamer_id gamer))) as [ex |] eqn:Hf.
    + rewrite (try_except_inl _ _ st ex st) in H
        by (apply bind_inl; now apply (signed_up_by_remove_fault fault event pk)).
      left. now apply signup_failed_run in H.
    + erewrite try_except_inr in H
        by (now rewrite (bind_inr _ _ _ _ _
                           (signed_up_by_remove_ok fault event pk gamer st Hid Hf))).
      right. exists gamer. split; [done |]. right. now inversion H.
Qed.

(** [signup] touches one pair and nothing else: whatever the request and
    the database fault, it leaves every table and the sign-ups of every
    other Event as they are, and for a requester with Gamer G the only
    sign-up that can change is the one of G for this Event. *)
Theorem signup_touches_one_pair request pk st :
  same_reference_tables st (signup fault request pk st).2
  ∧ events (signup fault request pk st).2 = events st
  ∧ (∀ e g, e ≠ pk →
            ((e, g) ∈ signed_up_by (signup fault request pk st).2
             ↔ (e, g) ∈ signed_up_by st))
  ∧ (∀ gamer g,
        Gamer_objects_get fault (auth_user request) st = (inr gamer, st) →
        g ≠ gamer_id gamer →
        ((pk, g) ∈ signed_up_by (signup fault request pk st).2
         ↔ (pk, g) ∈ signed_up_by st)).
Proof.
  destruct (signup fault request pk st) as [r st'] eqn:Hrun.
  apply signup_run in Hrun as [-> | (gamer & Hgamer & [-> | ->])]; simpl;
    (split; [now repeat split |]; split; [done |]; split;
     [ intros e g Hne; set_solver
     | intros gamer0 g Hg Hne;
       try (rewrite Hgamer in Hg; inversion Hg; subst); set_solver ]).
Qed.

(** [signup] catches [Event.DoesNotExist] and nothing else around the
    lookup: any other failure of the lookup, more than one row among them,
    is raised by the handler, for POST and DELETE alike, and nothing is
    written. *)
Theorem signup_lookup_failure_escapes request pk st gamer ex :
  Gamer_objects_get fault (auth_user request) st = (inr gamer, st) →
  Event_objects_get fault pk st = (inl ex, st) →
  is_Event_DoesNotExist ex = false →
  signup fault request pk st = (inl ex, st).
Proof.
  intros Hgamer Hget Hother. unfold signup. step Hgamer.
  apply bind_inl.
  rewrite (try_except_inl _ _ st ex st) by now apply bind_inl.
  now rewrite Hother.
Qed.

(** No Gamer for the user. *)
Lemma Gamer_objects_get_missing user st :
  fault (OpGetGamer (user_id user)) = None →
  (∀ g, g ∈ gamers st → gamer_user g ≠ user_id user) →
  Gamer_objects_get fault user st
  = (inl (Raised (DoesNotExist MGamer) ["Gamer matching query does not exist."]), st).
Proof.
  intros Hf Hno. unfold Gamer_objects_get. rewrite query_ok by done.
  now rewrite filter_none.
Qed.

(** A user without a Gamer gets no answer: [list] and [signup] raise
    [Gamer.DoesNotExist] at once, [create] does once it has read name and
    time, [update] once it has found the Event and read name and time.
    None of them writes. *)
Theorem user_without_gamer request st :
  fault (OpGetGamer (user_id (auth_user request))) = None →
  (∀ g, g ∈ gamers st → gamer_user g ≠ user_id (auth_user request)) →
  let ex := Raised (DoesNotExist MGamer) ["Gamer matching query does not exist."] in
  list_ fault py_int request st = (inl ex, st)
  ∧ (∀ pk, signup fault request pk st = (inl ex, st))
  ∧ (∀ name time,
        data request !! "name" = Some name →
        data request !! "time" = Some time →
        create fault py_int request st = (inl ex, st)
        ∧ ∀ pk event,
            Event_objects_get fault pk st = (inr event, st) →
            update fault py_int request pk st = (inl ex, st)).
Proof.
  intros Hf Hno ex.
  pose proof (Gamer_objects_get_missing (auth_user request) st Hf Hno) as Hgamer.
  fold ex in Hgamer. split; [| split].
  - unfold list_. now step Hgamer.
  - intros pk. unfold signup. now step Hgamer.
  - intros name time Hname Htime. split.
    + unfold create.
      step (data_get_ok request _ _ st Hname).
      step (data_get_ok request _ _ st Htime).
      now step Hgamer.
    + intros pk event Hget. unfold update. step Hget.
      step (data_get_ok request _ _ st Hname).
      step (data_get_ok request _ _ st Htime).
      now step Hgamer.
Qed.

(** ** Deleting *)

Lemma destroy_deletes request pk st event :
  Event_objects_get fault pk st = (inr event, st) →
  fault (OpDelete pk) = None →
  destroy fault request pk st
  = (inr (mkResponse (DataDict []) (VInt 204)), without_event pk st).
Proof.
  intros Hget Hf. unfold destroy. apply try_except_inr. step Hget.
  apply Event_objects_get_has_pk in Hget as [Hid _].
  now rewrite (bind_inr _ _ _ _ _ (Event_delete_ok fault event pk st Hid Hf)).
Qed.

Lemma no_row_without_event pk st r :
  r ∈ events (without_event pk st) → row_id r ≠ pk.
Proof. simpl. intros Hr. apply list_elem_of_filter in Hr. tauto. Qed.

Lemma Gamer_objects_get_same_gamers user st st' gamer :
  gamers st' = gamers st →
  Gamer_objects_get fault user st = (inr gamer, st) →
  Gamer_objects_get fault user st' = (inr gamer, st').
Proof.
  unfold Gamer_objects_get, query. intros ->.
  destruct (fault _); intros H; inversion H as [Hrow]. now rewrite Hrow.
Qed.

(** After a successful [destroy] the Event is gone for every handler: a
    second [destroy] of the key answers 404, [retrieve] answers 500,
    [signup] answers 400, and no sign-up for the key is left. *)
Theorem destroy_then_gone request pk st event :
  Event_objects_get fault pk st = (inr event, st) →
  fault (OpDelete pk) = None →
  ∃ st',
    destroy fault request pk st = (inr (mkResponse (DataDict []) (VInt 204)), st')
    ∧ destroy fault request pk st'
      = (inr (mkResponse
                (DataDict [("message", "Event matching query does not exist.")])
                (VInt 404)), st')
    ∧ retrieve fault request pk st'
      = (inr (mkResponse
                (DataContent (Raised (DoesNotExist MEvent)
                                     ["Event matching query does not exist."]))
                (VInt 500)), st')
    ∧ (∀ gamer,
          Gamer_objects_get fault (auth_user request) st = (inr gamer, st) →
          signup fault request pk st'
          = (inr (Some (mkResponse (DataDict [("message", "Event does not exist.")])
                                   (VInt 400))), st'))
    ∧ ∀ g, (pk, g) ∉ signed_up_by st'.
Proof.
  intros Hget Hf. exists (without_event pk st).
  pose proof (Event_objects_get_inr fault pk st event st Hget) as (_ & Hfget & _).
  pose proof (Event_objects_get_missing fault pk (without_event pk st) Hfget
                (no_row_without_event pk st)) as Hgone.
  split; [now apply (destroy_deletes request pk st event) |].
  split; [| split; [| split]].
  - rewrite (destroy_handles fault request pk (without_event pk st)
               (Raised (DoesNotExist MEvent) ["Event matching query does not exist."])
               "Event matching query does not exist."); [done | | done].
    now apply bind_inl.
  - unfold retrieve.
    rewrite (try_except_inl _ _ (without_event pk st)
               (Raised (DoesNotExist MEvent) ["Event matching query does not exist."])
               (without_event pk st)); [done |].
    now apply bind_inl.
  - intros gamer Hgamer. unfold signup.
    step (Gamer_objects_get_same_gamers (auth_user request) st (without_event pk st)
            gamer eq_refl Hgamer).
    rewrite (bind_inr _ _ (without_event pk st)
               (inl (mkResponse (DataDict [("message", "Event does not exist.")])
                                status.HTTP_400_BAD_REQUEST)) (without_event pk st));
      [reflexivity |].
    erewrite try_except_inl; [| apply bind_inl; exact Hgone]. reflexivity.
  - intros g. simpl. intros Hin. apply elem_of_filter in Hin as [Hne _]. now simpl in Hne.
Qed.

Lemma destroy_run request pk st r st' :
  destroy fault request pk st = (r, st') → st' = st ∨ st' = without_event pk st.
Proof.
  unfold destroy, try_except. intros H.
  assert (Hhandler : ∀ ex r st', 
             (if is_Event_DoesNotExist ex
              then message <- lift (args_0 ex) ;;
                   ret (mkResponse (DataDict [("message", message)])
                                   status.HTTP_404_NOT_FOUND)
              else message <- lift (args_0 ex) ;;
                   ret (mkResponse (DataDict [("message", message)])
                                   status.HTTP_500_INTERNAL_SERVER_ERROR)) st
             = (r, st') → st' = st).
  { intros ex r0 st0. unfold bind, lift.
    destruct (is_Event_DoesNotExist ex), (args_0 ex); intros H0; now inversion H0. }
  destruct (bind_cases (Event_objects_get fault pk)
              (λ event, Event_delete fault event ;;;
                        ret (mkResponse (DataDict []) status.HTTP_204_NO_CONTENT))
              st (reads_only_Event_objects_get pk))
    as [(ex & Hfail & Hrun) | (event & Hget & Hrun)]; rewrite Hrun in H; clear Hrun.
  - left. now apply Hhandler in H.
  - apply Event_objects_get_has_pk in Hget as [Hid _].
    destruct (fault (OpDelete pk)) as [ex |] eqn:Hf.
    + rewrite (bind_inl _ _ _ _ _ (Event_delete_fault fault event pk st ex Hid Hf)) in H.
      left. now apply Hhandler in H.
    + rewrite (bind_inr _ _ _ _ _ (Event_delete_ok fault event pk st Hid Hf)) in H.
      right. now inversion H.
Qed.

(** [destroy] touches the rows of its key and nothing else: whatever the
    request and the database fault, the rows of every other key stay, in
    their order, the sign-ups of every other Event stay, and the other
    tables are as before. *)
Theorem destroy_touches_one_key request pk st :
  same_reference_tables st (destroy fault request pk st).2
  ∧ filter (λ r, row_id r ≠ pk) (events (destroy fault request pk st).2)
    = filter (λ r, row_id r ≠ pk) (events st)
  ∧ ∀ e g, e ≠ pk →
           ((e, g) ∈ signed_up_by (destroy fault request pk st).2
            ↔ (e, g) ∈ signed_up_by st).
Proof.
  destruct (destroy fault request pk st) as [r st'] eqn:Hrun.
  apply destroy_run in Hrun as [-> | ->]; simpl.
  - now repeat split.
  - split; [now repeat split |]. split.
    + apply list_filter_filter_l. tauto.
    + intros e g Hne. rewrite elem_of_filter. simpl. tauto.
Qed.

(** ** Updating *)

Lemma update_rows_other row rows :
  filter (λ r, row_id r ≠ row_id row) (update_rows row rows)
  = filter (λ r, row_id r ≠ row_id row) rows.
Proof.
  unfold update_rows. induction rows as [| r rows IH]; [reflexivity |].
  rewrite fmap_cons, !filter_cons, IH.
  destruct (bool_decide (row_id r = row_id row)) eqn:E.
  - apply bool_decide_eq_true in E.
    destruct (decide (row_id row ≠ row_id row)); [done |].
    now destruct (decide (row_id r ≠ row_id row)).
  - reflexivity.
Qed.

Lemma update_rows_same row rows :
  filter (λ r, row_id r = row_id row) (update_rows row rows)
  = (λ _, row) <$> filter (λ r, row_id r = row_id row) rows.
Proof.
  unfold update_rows. induction rows as [| r rows IH]; [reflexivity |].
  rewrite fmap_cons, !filter_cons, IH.
  destruct (bool_decide (row_id r = row_id row)) eqn:E.
  - apply bool_decide_eq_true in E.
    destruct (decide (row_id row = row_id row)); [| done].
    now destruct (decide (row_id r = row_id row)).
  - apply bool_decide_eq_false in E.
    now destruct (decide (row_id r = row_id row)).
Qed.

Lemma update_rows_ids row rows :
  row_id <$> update_rows row rows = row_id <$> rows.
Proof.
  unfold update_rows. induction rows as [| r rows IH]; [reflexivity |].
  rewrite !fmap_cons, IH. f_equal.
  destruct (bool_decide (row_id r = row_id row)) eqn:E; [| done].
  now apply bool_decide_eq_true in E.
Qed.

(** A run of [update]: nothing is written, or every step up to [save] has
    succeeded and the rows of the key are rewritten. *)
Lemma update_run request pk st r st' :
  update fault py_int request pk st = (r, st') →
  st' = st
  ∨ ∃ event name time host gameId game statusId status_row,
      Event_objects_get fault pk st = (inr event, st)
      ∧ data request !! "name" = Some name
      ∧ data request !! "time" = Some time
      ∧ Gamer_objects_get fault (auth_user request) st = (inr host, st)
      ∧ data request !! "gameId" = Some gameId
      ∧ Game_objects_get fault py_int gameId st = (inr game, st)
      ∧ data request !! "statusId" = Some statusId
      ∧ Status_objects_get fault py_int statusId st = (inr status_row, st)
      ∧ st' = set_events st
                (update_rows (mkEventRow pk name time (gamer_id host)
                                         (game_id game) (status_id status_row))
                             (events st)).
Proof.
  assert (Hkey : ∀ key v, data_get request key st = (inr v, st) →
                          data request !! key = Some v).
  { intros key v. unfold data_get.
    destruct (data request !! key); intros H; now inversion H. }
  unfold update. intros H.
  reads H (reads_only_Event_objects_get pk) event Hget; [now left |].
  reads H (reads_only_data_get request "name") name Hname; [now left |].
  reads H (reads_only_data_get request "time") time Htime; [now left |].
  reads H (reads_only_Gamer_objects_get (auth_user request)) host Hhost;
    [now left |].
  reads H (reads_only_data_get request "gameId") gameId Hgid; [now left |].
  reads H (reads_only_Game_objects_get gameId) game Hgame; [now left |].
  reads H (reads_only_data_get request "statusId") statusId Hsid; [now left |].
  reads H (reads_only_Status_objects_get statusId) status_row Hstatus; [now left |].
  destruct (Event_objects_get_has_pk fault pk st event Hget) as [Hid Hhas].
  destruct (fault (OpSave (mkEventRow pk name time (gamer_id host) (game_id game)
                                      (status_id status_row)))) as [ex |] eqn:Hf.
  - left. erewrite bind_inl in H; [now inversion H |].
    apply (Event_save_fault fault _ st pk); [now rewrite Hid | exact Hf].
  - right. exists event, name, time, host, gameId, game, statusId, status_row.
    repeat (split; [now auto |]).
    erewrite bind_inr in H;
      [| apply (Event_save_update fault _ pk); [exact Hid | exact Hhas | exact Hf]].
    unfold bind, lift in H. rewrite Status_has_no_HTTP_204_NO_CONTENT in H.
    now inversion H.
Qed.

(** [update] touches the rows of its key and nothing else: whatever the
    request and the database fault, the rows of other keys stay as they
    are, no row is added or removed, no key changes, and the sign-ups and
    the other tables are as before. *)
Theorem update_touches_one_key request pk st :
  same_reference_tables st (update fault py_int request pk st).2
  ∧ signed_up_by (update fault py_int request pk st).2 = signed_up_by st
  ∧ filter (λ r, row_id r ≠ pk) (events (update fault py_int request pk st).2)
    = filter (λ r, row_id r ≠ pk) (events st)
  ∧ row_id <$> events (update fault py_int request pk st).2 = row_id <$> events st.
Proof.
  destruct (update fault py_int request pk st) as [r st'] eqn:Hrun.
  apply update_run in Hrun
    as [-> | (event & name & time & host & gameId & game & statusId & status_row
              & _ & _ & _ & _ & _ & _ & _ & _ & ->)]; simpl.
  - now repeat split.
  - split; [now repeat split |]. split; [done |]. split.
    + apply (update_rows_other
               (mkEventRow pk name time (gamer_id host) (game_id game)
                           (status_id status_row))).
    + apply update_rows_ids.
Qed.

(** [update] reads four keys of the body before it writes: when name,
    time, gameId or statusId is missing, it raises and nothing is
    written. *)
Theorem update_missing_key_writes_nothing request pk st :
  data request !! "name" = None ∨ data request !! "time" = None
  ∨ data request !! "gameId" = None ∨ data request !! "statusId" = None →
  ∃ ex, update fault py_int request pk st = (inl ex, st).
Proof.
  intros Hmissing.
  destruct (update fault py_int request pk st) as [[ex | response] st'] eqn:Hrun.
  - exists ex. f_equal.
    apply update_run in Hrun
      as [-> | (event & name & time & host & gameId & game & statusId & status_row
                & _ & Hname & Htime & _ & Hgid & _ & Hsid & _)]; [done |].
    destruct Hmissing as [Hm | [Hm | [Hm | Hm]]]; congruence.
  - now apply update_never_answers in Hrun.
Qed.

(** [update] always ends in an exception: whatever the request, the key,
    the database fault and the tables, it returns no response, with or
    without having written the row. *)
Theorem update_always_raises request pk st :
  ∃ ex, (update fault py_int request pk st).1 = inl ex.
Proof.
  destruct (update fault py_int request pk st) as [[ex | response] st'] eqn:Hrun.
  - now exists ex.
  - now apply update_never_answers in Hrun.
Qed.

(** No failure of [update] is handled: a key without Event raises
    [Event.DoesNotExist], and a failure of [save], a validation failure
    included, is raised as it is; in both cases nothing is written. *)
Theorem update_failures_escape request pk st :
  (fault (OpGet MEvent pk) = None →
   (∀ r, r ∈ events st → row_id r ≠ pk) →
   update fault py_int request pk st
   = (inl (Raised (DoesNotExist MEvent) ["Event matching query does not exist."]),
      st))
  ∧ (∀ event name time host gameId game statusId status_row ex,
        Event_objects_get fault pk st = (inr event, st) →
        data request !! "name" = Some name →
        data request !! "time" = Some time →
        Gamer_objects_get fault (auth_user request) st = (inr host, st) →
        data request !! "gameId" = Some gameId →
        Game_objects_get fault py_int gameId st = (inr game, st) →
        data request !! "statusId" = Some statusId →
        Status_objects_get fault py_int statusId st = (inr status_row, st) →
        fault (OpSave (mkEventRow pk name time (gamer_id host) (game_id game)
                                  (status_id status_row))) = Some ex →
        update fault py_int request pk st = (inl ex, st)).
Proof.
  split.
  - intros Hf Hno. unfold update.
    now step (Event_objects_get_missing fault pk st Hf Hno).
  - intros event name time host gameId game statusId status_row ex
           Hget Hname Htime Hhost Hgid Hgame Hsid Hstatus Hsave.
    destruct (Event_objects_get_has_pk fault pk st event Hget) as [Hid _].
    unfold update.
    step Hget.
    step (data_get_ok request _ _ st Hname).
    step (data_get_ok request _ _ st Htime).
    step Hhost.
    step (data_get_ok request _ _ st Hgid).
    step Hgame.
    step (data_get_ok request _ _ st Hsid).
    step Hstatus.
    apply bind_inl.
    apply (Event_save_fault fault _ st pk); [now rewrite Hid | exact Hsave].
Qed.

(** What a valid [update] leaves behind: the row of the key now holds the
    name, time, game and status of the body and the requester's Gamer as
    host, so that a lookup of the key returns exactly that row; a host
    field in the body makes no difference. *)
Theorem update_rewrites_row
    request pk st event name time gameId statusId host game status_row :
  Event_objects_get fault pk st = (inr event, st) →
  data request !! "name" = Some name →
  data request !! "time" = Some time →
  Gamer_objects_get fault (auth_user request) st = (inr host, st) →
  data request !! "gameId" = Some gameId →
  Game_objects_get fault py_int gameId st = (inr game, st) →
  data request !! "statusId" = Some statusId →
  Status_objects_get fault py_int statusId st = (inr status_row, st) →
  fault (OpSave (mkEventRow pk name time (gamer_id host) (game_id game)
                            (status_id status_row))) = None →
  let row := mkEventRow pk name time (gamer_id host) (game_id game)
                        (status_id status_row) in
  let st' := (update fault py_int request pk st).2 in
  Event_objects_get fault pk st' = (inr (from_db row), st')
  ∧ gamer_user host = user_id (auth_user request)
  ∧ ∀ h, update fault py_int (set_data request (<["host" := h]> (data request))) pk st
         = update fault py_int request pk st.
Proof.
  intros Hget Hname Htime Hhost Hgid Hgame Hsid Hstatus Hsave row st'.
  split; [| split].
  - subst st'.
    rewrite (update_saves_then_raises fault py_int request pk st event name time
               gameId statusId host game status_row) by done.
    simpl. fold row.
    apply Event_objects_get_inr in Hget as (_ & Hf & r & Hr & _ & _).
    unfold Event_objects_get. rewrite query_ok by done. simpl.
    change pk with (row_id row) at 1.
    rewrite update_rows_same. simpl. now rewrite Hr.
  - now apply Gamer_objects_get_inr in Hhost as (_ & _ & Huser).
  - intros h. unfold update, data_get, set_data. simpl.
    now rewrite !lookup_insert_ne by done.
Qed.

(** ** Creating *)

(** [create] reads three keys of the body before it writes: when name,
    time or game_id is missing, it raises and nothing is written; a body
    without name is answered by [KeyError] on name. *)
Theorem create_missing_key_writes_nothing request st :
  (data request !! "name" = None ∨ data request !! "time" = None
   ∨ data request !! "game_id" = None →
   ∃ ex, create fault py_int request st = (inl ex, st))
  ∧ (data request !! "name" = None →
     create fault py_int request st = (inl (Raised KeyError ["name"]), st)).
Proof.
  assert (Hkey : ∀ key v, data request !! key = None →
                          data_get request key st ≠ (inr v, st)).
  { intros key v Hnone. unfold data_get. now rewrite Hnone. }
  split.
  - intros Hmissing.
    destruct (create fault py_int request st) as [r st'] eqn:Hrun.
    unfold create in Hrun.
    reads Hrun (reads_only_data_get request "name") name Hname; [eauto |].
    reads Hrun (reads_only_data_get request "time") time Htime; [eauto |].
    reads Hrun (reads_only_Gamer_objects_get (auth_user request)) gamer Hgamer;
      [eauto |].
    reads Hrun (reads_only_data_get request "game_id") game_pk Hgid; [eauto |].
    destruct Hmissing as [Hm | [Hm | Hm]];
      [ now apply (Hkey _ name) in Hm
      | now apply (Hkey _ time) in Hm
      | now apply (Hkey _ game_pk) in Hm ].
  - intros Hnone. unfold create, data_get at 1. now rewrite Hnone.
Qed.

(** Only a validation failure of [save] is answered: any other failure of
    [save] is raised by [create] as it is, and nothing is written. *)
Theorem create_save_failure_escapes
    request st name time game_pk gamer game event_status cls args :
  data request !! "name" = Some name →
  data request !! "time" = Some time →
  data request !! "game_id" = Some game_pk →
  Gamer_objects_get fault (auth_user request) st = (inr gamer, st) →
  Game_objects_get fault py_int game_pk st = (inr game, st) →
  Status_objects_get fault py_int (VInt 1) st = (inr event_status, st) →
  fault (OpSave (mkEventRow (fresh_pk (events st)) name time (gamer_id gamer)
                            (game_id game) (status_id event_status)))
  = Some (Raised cls args) →
  create fault py_int request st = (inl (Raised cls args), st).
Proof.
  intros Hname Htime Hgid Hgamer Hgame Hstatus Hsave. unfold create.
  step (data_get_ok request _ _ st Hname).
  step (data_get_ok request _ _ st Htime).
  step Hgamer.
  step (data_get_ok request _ _ st Hgid).
  step Hgame. step Hstatus.
  rewrite (try_except_inl _ _ st (Raised cls args) st); [reflexivity |].
  apply bind_inl.
  now apply (Event_save_fault fault _ st (fresh_pk (events st))).
Qed.

Lemma Game_objects_get_inr v st game st' :
  Game_objects_get fault py_int v st = (inr game, st') →
  filter (λ g, game_id g = game_id game) (games st) = [game].
Proof.
  unfold Game_objects_get, bind, lift. intros H.
  destruct (to_pk py_int v) as [ex | pk]; [discriminate |].
  apply query_inr in H as (_ & _ & H). apply get_one_inr in H.
  pose proof (filter_one_elem _ _ _ H) as [_ Heq]. simpl in Heq.
  now rewrite Heq.
Qed.

Lemma Status_objects_get_row v st status_row st' :
  Status_objects_get fault py_int v st = (inr status_row, st') →
  filter (λ s, status_id s = status_id status_row) (statuses st) = [status_row].
Proof.
  unfold Status_objects_get, bind, lift. intros H.
  destruct (to_pk py_int v) as [ex | pk]; [discriminate |].
  apply query_inr in H as (_ & _ & H). apply get_one_inr in H.
  pose proof (filter_one_elem _ _ _ H) as [_ Heq]. simpl in Heq.
  now rewrite Heq.
Qed.

Lemma filter_fresh_row rows row :
  row_id row = fresh_pk rows →
  filter (λ r, row_id r = fresh_pk rows) (rows ++ [row]) = [row].
Proof.
  intros Hid. rewrite filter_app, filter_none.
  - simpl. now rewrite filter_singleton_True.
  - intros r Hr Heq. apply fresh_pk_above in Hr. lia.
Qed.

(** The serializer on an instance fresh from its row, when the four rows
    its foreign keys point to are there. *)
Lemma EventSerializer_from_db r st game host u status_row :
  filter (λ g, game_id g = row_game r) (games st) = [game] →
  filter (λ g, gamer_id g = row_host r) (gamers st) = [host] →
  filter (λ x, user_id x = gamer_user host) (users st) = [u] →
  filter (λ s, status_id s = row_status r) (statuses st) = [status_row] →
  EventSerializer (from_db r) st
  = (inr (mkEventJSON (Some (row_id r)) (GameSerializer game)
                      (mkEventGamerJSON (EventUserSerializer u))
                      (row_name r) (row_time r)
                      (StatusSerializer status_row) None), st).
Proof.
  intros Hgame Hhost Huser Hstatus.
  unfold EventSerializer, EventGamerSerializer, resolve, bind, get_store, lift, ret.
  simpl. rewrite Hgame. simpl. rewrite Hhost. simpl. rewrite Huser. simpl.
  now rewrite Hstatus.
Qed.

(** What [create] writes is what [retrieve] finds: after a [create]
    answered by 201, a [retrieve] of the id that [create] returned answers
    200 with an Event of that id and of the same game, host and status.
    Name and time are left out: the form in which they come back from the
    table depends on the field types of the model. *)
Theorem create_then_retrieve
    request st name time game_pk gamer game event_status u :
  data request !! "name" = Some name →
  data request !! "time" = Some time →
  data request !! "game_id" = Some game_pk →
  Gamer_objects_get fault (auth_user request) st = (inr gamer, st) →
  Game_objects_get fault py_int game_pk st = (inr game, st) →
  Status_objects_get fault py_int (VInt 1) st = (inr event_status, st) →
  (∀ row, fault (OpSave row) = None) →
  (∀ pk, fault (OpGet MEvent pk) = None) →
  filter (λ x, user_id x = gamer_user gamer) (users st) = [u] →
  filter (λ g, gamer_id g = gamer_id gamer) (gamers st) = [gamer] →
  ∃ st' created pk,
    create fault py_int request st
    = (inr (mkResponse (DataEvent created) (VInt 201)), st')
    ∧ j_id created = Some pk
    ∧ ∀ request',
        ∃ found,
          retrieve fault request' pk st'
          = (inr (mkResponse (DataEvent found) (VInt 200)), st')
          ∧ j_id found = Some pk
          ∧ j_game found = j_game created
          ∧ j_host found = j_host created
          ∧ j_status found = j_status created.
Proof.
  intros Hname Htime Hgid Hgamer Hgame Hstatus Hsave Hfget Huser Hgamer_pk.
  set (event := mkEvent None name time
                        (Loaded gamer) (Loaded game) (Loaded event_status) None).
  set (pk := fresh_pk (events st)).
  set (row := to_row pk event).
  set (st' := set_events st (events st ++ [row])).
  exists st'. eexists. exists pk. split; [| split].
  - unfold create.
    step (data_get_ok request _ _ st Hname).
    step (data_get_ok request _ _ st Htime).
    step Hgamer.
    step (data_get_ok request _ _ st Hgid).
    step Hgame. step Hstatus.
    apply try_except_inr.
    rewrite (bind_inr _ _ _ _ _
               (Event_save_insert fault event st eq_refl (Hsave _))).
    fold pk row st'.
    now rewrite (bind_inr _ _ _ _ _
                   (EventSerializer_loaded (set_id event pk) gamer game
                      event_status u st' eq_refl eq_refl eq_refl Huser)).
  - reflexivity.
  - intros request'. eexists. split; [| now repeat split].
    unfold retrieve. apply try_except_inr.
    assert (Hget : Event_objects_get fault pk st' = (inr (from_db row), st')).
    { unfold Event_objects_get. rewrite query_ok by apply Hfget. simpl.
      unfold pk. now rewrite (filter_fresh_row (events st) row eq_refl). }
    step Hget.
    rewrite (bind_inr _ _ _ _ _
               (EventSerializer_from_db row st' game gamer u event_status
                  (Game_objects_get_inr _ _ _ _ Hgame) Hgamer_pk Huser
                  (Status_objects_get_row _ _ _ _ Hstatus))).
    reflexivity.
Qed.

(** ** Listing *)

(** The serializer copies id, name, time and joined from the instance. *)
Lemma EventSerializer_fields event st j st' :
  EventSerializer event st = (inr j, st') →
  j_id j = ev_id event ∧ j_name j = ev_name event
  ∧ j_time j = ev_time event ∧ j_joined j = ev_joined event.
Proof.
  unfold EventSerializer, bind.
  repeat match goal with
         | |- context [match ?x with _ => _ end] => destruct x
         end; try discriminate.
  intros H. inversion H. now subst.
Qed.

(** The game it renders for an instance fresh from a row is the one the
    row points to. *)
Lemma EventSerializer_game r st j st' :
  EventSerializer (from_db r) st = (inr j, st') →
  j_game_id (j_game j) = row_game r.
Proof.
  unfold EventSerializer, bind at 1. simpl.
  unfold bind at 1, get_store, lift.
  destruct (get_one MGame _) as [ex | game] eqn:Hgame; [discriminate |].
  apply get_one_inr, filter_one_elem in Hgame as [_ Hid].
  unfold bind.
  repeat match goal with
         | |- context [match ?x with _ => _ end] => destruct x
         end; try discriminate.
  intros H. inversion H. now subst.
Qed.

(** Whether an instance can be rendered does not depend on its [joined]. *)
Lemma EventSerializer_set_joined event b st j :
  EventSerializer event st = (inr j, st) →
  ∃ j', EventSerializer (set_joined event b) st = (inr j', st)
        ∧ j_id j' = ev_id event ∧ j_name j' = ev_name event
        ∧ j_time j' = ev_time event ∧ j_joined j' = Some b.
Proof.
  unfold EventSerializer, bind. simpl.
  repeat match goal with
         | |- context [match ?x with _ => _ end] => destruct x
         end; try discriminate.
  intros H. inversion H; subst. eexists. split; [reflexivity |]. now simpl.
Qed.

Lemma for_each_total {A B : Type} (f : A → M B) (P : A → B → Prop)
    (items : list A) st :
  (∀ a, a ∈ items → ∃ b, f a st = (inr b, st) ∧ P a b) →
  ∃ bs, for_each f items st = (inr bs, st) ∧ Forall2 P items bs.
Proof.
  induction items as [| a items IH]; intros Hall.
  - exists []. split; [reflexivity | constructor].
  - destruct (Hall a) as (b & Hb & HP); [left |].
    destruct IH as (bs & Hbs & HPs); [intros x Hx; apply Hall; now right |].
    exists (b :: bs). split; [| now constructor].
    simpl. step Hb. now step Hbs.
Qed.

Lemma list_answer_inr items st js :
  for_each EventSerializer items st = (inr js, st) →
  list_answer items st = (inr (mkResponse (DataEvents js) (VInt 200)), st).
Proof. intros H. unfold list_answer. now rewrite H. Qed.

(** Without [gameId], [list] renders the whole table: when the Gamer of the
    requester is found and every Event of the table can be rendered (as
    [retrieve] would), the answer is 200 with one entry per row, in table
    order, each with the id, name and time of its row and with joined true
    exactly when the requester's Gamer is in the sign-up set of that
    Event. *)
Theorem list_renders_every_event request st gamer :
  Gamer_objects_get fault (auth_user request) st = (inr gamer, st) →
  query_params request !! "gameId" = None →
  (∀ r, r ∈ events st → ∃ j, EventSerializer (from_db r) st = (inr j, st)) →
  ∃ js,
    list_ fault py_int request st
    = (inr (mkResponse (DataEvents js) (VInt 200)), st)
    ∧ Forall2 (λ r j,
                 j_id j = Some (row_id r)
                 ∧ j_name j = row_name r ∧ j_time j = row_time r
                 ∧ j_joined j
                   = Some (bool_decide
                             ((row_id r, gamer_id gamer) ∈ signed_up_by st)))
              (events st) js.
Proof.
  intros Hgamer Hnone Hall.
  rewrite (list_without_gameId fault py_int request st gamer Hgamer Hnone).
  destruct (for_each_total EventSerializer
              (λ event j, j_id j = ev_id event ∧ j_name j = ev_name event
                          ∧ j_time j = ev_time event ∧ j_joined j = ev_joined event)
              ((λ r, set_joined (from_db r)
                       (bool_decide ((row_id r, gamer_id gamer) ∈ signed_up_by st)))
                 <$> events st) st) as (js & Hjs & Hfields).
  - intros event Hevent. apply list_elem_of_fmap in Hevent as (r & -> & Hr).
    destruct (Hall r Hr) as (j & Hj).
    destruct (EventSerializer_set_joined (from_db r)
                (bool_decide ((row_id r, gamer_id gamer) ∈ signed_up_by st)) st j Hj)
      as (j' & Hj' & Hfields).
    exists j'. split; [exact Hj' |]. exact Hfields.
  - exists js. split; [now apply list_answer_inr |].
    apply Forall2_fmap_l in Hfields. eapply Forall2_impl; [exact Hfields |].
    now intros r j.
Qed.

(** With [gameId], [list] selects by game: when the parameter is the number
    k and every Event of game k can be rendered, the answer is 200 with one
    entry per row of game k and no other, in table order, each with the
    id, name and time of its row and with k as the id of its game. *)
Theorem list_gameId_selects request st gamer game k :
  Gamer_objects_get fault (auth_user request) st = (inr gamer, st) →
  query_params request !! "gameId" = Some game →
  py_int game = Some k →
  (∀ r, r ∈ events st → row_game r = k →
        ∃ j, EventSerializer (from_db r) st = (inr j, st)) →
  ∃ js,
    list_ fault py_int request st
    = (inr (mkResponse (DataEvents js) (VInt 200)), st)
    ∧ Forall2 (λ r j,
                 j_id j = Some (row_id r)
                 ∧ j_name j = row_name r ∧ j_time j = row_time r
                 ∧ j_game_id (j_game j) = k)
              (filter (λ r, row_game r = k) (events st)) js.
Proof.
  intros Hgamer Hgame Hk Hall.
  rewrite (list_with_gameId fault py_int request st gamer game k Hgamer Hgame Hk).
  destruct (for_each_total EventSerializer
              (λ event j, ∃ r, event = from_db r ∧ row_game r = k
                               ∧ EventSerializer event st = (inr j, st))
              (from_db <$> filter (λ r, row_game r = k) (events st)) st)
    as (js & Hjs & Hfields).
  - intros event Hevent. apply list_elem_of_fmap in Hevent as (r & -> & Hr).
    apply list_elem_of_filter in Hr as [Hrk Hr].
    destruct (Hall r Hr Hrk) as (j & Hj). exists j. split; [exact Hj |].
    now exists r.
  - exists js. split; [now apply list_answer_inr |].
    apply Forall2_fmap_l in Hfields.
    assert (Hrows : Forall (λ r, row_game r = k)
                           (filter (λ r, row_game r = k) (events st))).
    { apply Forall_forall. intros r Hr. now apply list_elem_of_filter in Hr. }
    clear Hjs. revert js Hfields.
    induction Hrows as [| r rows Hr Hrows IH]; intros js Hfields;
      inversion Hfields as [| ? j ? js' (r' & Heq & _ & Hj) Hrest]; subst;
      constructor.
    + pose proof (EventSerializer_fields _ _ _ _ Hj) as (Hid & Hname & Htime & _).
      apply EventSerializer_game in Hj. simpl in *. now rewrite Hj.
    + now apply IH.
Qed.

(** The edges of [gameId]: a number that is the game of no Event is
    answered by 200 with an empty list, not by an error; a value that is
    not a number makes [list] raise [ValueError]. *)
Theorem list_gameId_edges request st gamer game :
  Gamer_objects_get fault (auth_user request) st = (inr gamer, st) →
  query_params request !! "gameId" = Some game →
  (∀ k, py_int game = Some k →
        (∀ r, r ∈ events st → row_game r ≠ k) →
        list_ fault py_int request st
        = (inr (mkResponse (DataEvents []) (VInt 200)), st))
  ∧ (py_int game = None →
     list_ fault py_int request st
     = (inl (Raised ValueError
                    ["Field 'id' expected a number but got '" +:+ game +:+ "'."]),
        st)).
Proof.
  intros Hgamer Hgame. split.
  - intros k Hk Hno.
    rewrite (list_with_gameId fault py_int request st gamer game k Hgamer Hgame Hk).
    now rewrite filter_none.
  - intros Hnan. unfold list_. step Hgamer.
    apply Gamer_objects_get_inr in Hgamer as (_ & Hin & _).
    step (set_joined_each_all gamer st Hin). rewrite Hgame.
    unfold qs_filter_game_id, to_pk. now rewrite Hnan.
Qed.

End More.

(** * The further properties on the small database *)

Lemma create_missing_key_writes_nothing_witness :
  (∃ ex, create no_fault decimal create_request_no_time demo = (inl ex, demo))
  ∧ create no_fault decimal (request_by ada "POST") demo
    = (inl (Raised KeyError ["name"]), demo).
Proof.
  split.
  - apply (create_missing_key_writes_nothing no_fault decimal
             create_request_no_time demo).
    right. left. reflexivity.
  - apply (create_missing_key_writes_nothing no_fault decimal
             (request_by ada "POST") demo).
    reflexivity.
Defined.

Lemma create_save_failure_escapes_witness :
  create (fault_on is_save locked) decimal create_request demo = (inl locked, demo).
Proof.
  apply (create_save_failure_escapes (fault_on is_save locked) decimal
           create_request demo (VStr "Quiz") (VStr "18:00") (VInt 3)
           gamer_ada trivia status_open);
    reflexivity.
Defined.

Lemma create_then_retrieve_witness :
  ∃ st' created pk,
    create no_fault decimal create_request demo
    = (inr (mkResponse (DataEvent created) (VInt 201)), st')
    ∧ j_id created = Some pk
    ∧ ∀ request',
        ∃ found,
          retrieve no_fault request' pk st'
          = (inr (mkResponse (DataEvent found) (VInt 200)), st')
          ∧ j_id found = Some pk
          ∧ j_game found = j_game created
          ∧ j_host found = j_host created
          ∧ j_status found = j_status created.
Proof.
  apply (create_then_retrieve no_fault decimal create_request demo
           (VStr "Quiz") (VStr "18:00") (VInt 3) gamer_ada trivia status_open ada);
    reflexivity.
Defined.

Lemma update_missing_key_writes_nothing_witness :
  ∃ ex, update no_fault decimal update_request_no_status 1 demo = (inl ex, demo).
Proof.
  apply (update_missing_key_writes_nothing no_fault decimal
           update_request_no_status 1 demo).
  right. right. right. reflexivity.
Defined.

Lemma update_failures_escape_witness :
  update no_fault decimal update_request 999 demo
  = (inl (Raised (DoesNotExist MEvent) ["Event matching query does not exist."]),
     demo)
  ∧ update (fault_on is_save (ValidationError "invalid time")) decimal
           update_request 1 demo
    = (inl (ValidationError "invalid time"), demo).
Proof.
  split.
  - apply (update_failures_escape no_fault decimal update_request 999 demo);
      [reflexivity | none_of_rows].
  - apply (proj2 (update_failures_escape
                    (fault_on is_save (ValidationError "invalid time")) decimal
                    update_request 1 demo)
             (from_db trivia_night) (VStr "Quiz") (VStr "18:00") gamer_ada
             (VInt 4) chess (VInt 2) status_closed);
      reflexivity.
Defined.

Lemma update_rewrites_row_witness :
  Event_objects_get no_fault 1 (update no_fault decimal update_request 1 demo).2
  = (inr (from_db (mkEventRow 1 (VStr "Quiz") (VStr "18:00") 7 4 2)),
     (update no_fault decimal update_request 1 demo).2)
  ∧ gamer_user gamer_ada = user_id (auth_user update_request)
  ∧ ∀ h, update no_fault decimal
                (set_data update_request (<["host" := h]> (data update_request)))
                1 demo
         = update no_fault decimal update_request 1 demo.
Proof.
  apply (update_rewrites_row no_fault decimal update_request 1 demo
           (from_db trivia_night) (VStr "Quiz") (VStr "18:00") (VInt 4) (VInt 2)
           gamer_ada chess status_closed);
    reflexivity.
Defined.

Lemma signup_then_leave_witness :
  ∃ st1 st2,
    signup no_fault (request_by bob "POST") 1 demo
    = (inr (Some (mkResponse (DataDict []) (VInt 201))), st1)
    ∧ signup no_fault (request_by bob "DELETE") 1 st1
      = (inr (Some (mkResponse DataNone (VInt 204))), st2)
    ∧ ((1, gamer_id gamer_bob) ∉ signed_up_by st2)
    ∧ (∀ p, p ≠ (1, gamer_id gamer_bob) →
            (p ∈ signed_up_by st2 ↔ p ∈ signed_up_by demo))
    ∧ ((1, gamer_id gamer_bob) ∉ signed_up_by demo → st2 = demo).
Proof.
  apply (signup_then_leave no_fault (request_by bob "POST") (request_by bob "DELETE")
           1 demo gamer_bob (from_db trivia_night));
    reflexivity.
Defined.

Lemma signup_again_changes_nothing_witness :
  signup no_fault (request_by ada "POST") 1 demo
  = (inr (Some (mkResponse (DataDict []) (VInt 201))), demo)
  ∧ signup no_fault (request_by bob "DELETE") 1 demo
    = (inr (Some (mkResponse DataNone (VInt 204))), demo).
Proof.
  split.
  - apply (signup_again_changes_nothing no_fault (request_by ada "POST") 1 demo
             gamer_ada (from_db trivia_night));
      first [reflexivity | apply (bool_decide_unpack _); vm_compute; exact I].
  - apply (signup_again_changes_nothing no_fault (request_by bob "DELETE") 1 demo
             gamer_bob (from_db trivia_night));
      first [reflexivity | apply (bool_decide_unpack _); vm_compute; exact I].
Defined.

Lemma signup_lookup_failure_escapes_witness :
  signup no_fault (request_by ada "POST") 1 demo_twice
  = (inl (Raised (MultipleObjectsReturned MEvent)
                 ["get() returned more than one Event"]), demo_twice).
Proof.
  apply (signup_lookup_failure_escapes no_fault (request_by ada "POST") 1
           demo_twice gamer_ada);
    reflexivity.
Defined.

Lemma user_without_gamer_witness :
  list_ no_fault decimal (request_by carol "GET") demo
  = (inl (Raised (DoesNotExist MGamer) ["Gamer matching query does not exist."]),
     demo)
  ∧ signup no_fault (request_by carol "POST") 1 demo
    = (inl (Raised (DoesNotExist MGamer) ["Gamer matching query does not exist."]),
       demo)
  ∧ create no_fault decimal (as_user carol create_request) demo
    = (inl (Raised (DoesNotExist MGamer) ["Gamer matching query does not exist."]),
       demo)
  ∧ update no_fault decimal (as_user carol update_request) 1 demo
    = (inl (Raised (DoesNotExist MGamer) ["Gamer matching query does not exist."]),
       demo).
Proof.
  assert (Hno : ∀ g, g ∈ gamers demo → gamer_user g ≠ user_id carol)
    by none_of_rows.
  split; [| split; [| split]].
  - apply (user_without_gamer no_fault decimal (request_by carol "GET") demo
             eq_refl Hno).
  - apply (user_without_gamer no_fault decimal (request_by carol "POST") demo
             eq_refl Hno).
  - apply (proj2 (proj2 (user_without_gamer no_fault decimal
                           (as_user carol create_request) demo eq_refl Hno))
             (VStr "Quiz") (VStr "18:00") eq_refl eq_refl).
  - apply (proj2 (proj2 (proj2 (user_without_gamer no_fault decimal
                                  (as_user carol update_request) demo eq_refl Hno))
                    (VStr "Quiz") (VStr "18:00") eq_refl eq_refl)
             1 (from_db trivia_night) eq_refl).
Defined.

Lemma destroy_then_gone_witness :
  ∃ st',
    destroy no_fault (request_by ada "DELETE") 1 demo
    = (inr (mkResponse (DataDict []) (VInt 204)), st')
    ∧ destroy no_fault (request_by ada "DELETE") 1 st'
      = (inr (mkResponse
                (DataDict [("message", "Event matching query does not exist.")])
                (VInt 404)), st')
    ∧ retrieve no_fault (request_by ada "DELETE") 1 st'
      = (inr (mkResponse
                (DataContent (Raised (DoesNotExist MEvent)
                                     ["Event matching query does not exist."]))
                (VInt 500)), st')
    ∧ (∀ gamer,
          Gamer_objects_get no_fault (auth_user (request_by ada "DELETE")) demo
          = (inr gamer, demo) →
          signup no_fault (request_by ada "DELETE") 1 st'
          = (inr (Some (mkResponse (DataDict [("message", "Event does not exist.")])
                                   (VInt 400))), st'))
    ∧ ∀ g, (1, g) ∉ signed_up_by st'.
Proof.
  apply (destroy_then_gone no_fault (request_by ada "DELETE") 1 demo
           (from_db trivia_night));
    reflexivity.
Defined.

Lemma demo_renders r :
  r ∈ events demo → ∃ j, EventSerializer (from_db r) demo = (inr j, demo).
Proof.
  revert r. apply rows_all. repeat constructor; eexists; vm_compute; reflexivity.
Qed.

Lemma list_renders_every_event_witness :
  ∃ js,
    list_ no_fault decimal list_request demo
    = (inr (mkResponse (DataEvents js) (VInt 200)), demo)
    ∧ Forall2 (λ r j,
                 j_id j = Some (row_id r)
                 ∧ j_name j = row_name r ∧ j_time j = row_time r
                 ∧ j_joined j
                   = Some (bool_decide
                             ((row_id r, gamer_id gamer_ada) ∈ signed_up_by demo)))
              (events demo) js.
Proof.
  apply (list_renders_every_event no_fault decimal list_request demo gamer_ada);
    [reflexivity | reflexivity | exact demo_renders].
Defined.

Lemma list_gameId_selects_witness :
  ∃ js,
    list_ no_fault decimal (list_request_game "3") demo
    = (inr (mkResponse (DataEvents js) (VInt 200)), demo)
    ∧ Forall2 (λ r j,
                 j_id j = Some (row_id r)
                 ∧ j_name j = row_name r ∧ j_time j = row_time r
                 ∧ j_game_id (j_game j) = 3)
              (filter (λ r, row_game r = 3) (events demo)) js.
Proof.
  apply (list_gameId_selects no_fault decimal (list_request_game "3") demo
           gamer_ada "3" 3);
    [reflexivity | reflexivity | reflexivity |].
  intros r Hr _. now apply demo_renders.
Defined.

Lemma list_gameId_edges_witness :
  list_ no_fault decimal (list_request_game "9") demo
  = (inr (mkResponse (DataEvents []) (VInt 200)), demo)
  ∧ list_ no_fault decimal (list_request_game "abc") demo
    = (inl (Raised ValueError ["Field 'id' expected a number but got 'abc'."]),
       demo).
Proof.
  split.
  - apply (proj1 (list_gameId_edges no_fault decimal (list_request_game "9") demo
                    gamer_ada "9" eq_refl eq_refl) 9);
      [reflexivity | none_of_rows].
  - apply (proj2 (list_gameId_edges no_fault decimal (list_request_game "abc") demo
                    gamer_ada "abc" eq_refl eq_refl)).
    reflexivity.
Defined.
